(** * The DTU command-execution and request-lifecycle engine

    A shallow embedding of [src/mem/dtu/dtu.cc]: the register-driven command
    state machine of the Data Transfer Unit, its atomic and timed request
    paths, the cache-memory forwarding path and the register-file access
    path.  Mutable members of the C++ object become fields of the record
    [Dtu]; the methods become computations in a state-and-failure monad;
    calls that leave the engine (ports, the event queue) are recorded, in
    order, in a trace of [Event]s. *)

From Stdlib Require Import ZArith List Bool Lia.
Import ListNotations.
Local Open Scope Z_scope.

(** ** Machine integers

    [Addr], [Tick] and [RegFile::reg_t] are 64-bit unsigned integers,
    [unsigned] is 32 bits wide.  They are carried as [Z] and every
    operation that can leave the range is followed by its wrap-around. *)

Definition wrap64 (z : Z) : Z := z mod 2 ^ 64.
Definition wrap32 (z : Z) : Z := z mod 2 ^ 32.

Definition is_u64 (z : Z) : Prop := 0 <= z < 2 ^ 64.
Definition is_u32 (z : Z) : Prop := 0 <= z < 2 ^ 32.

(** ** Registers

    The register file is addressed by a DTU register, a command register
    or a pair of an endpoint id and an endpoint register.  Only the
    registers [dtu.cc] names are listed; the remaining ones of each bank
    are reached through the [..Other] constructors. *)

Inductive DtuReg : Set := MSG_CNT | DtuRegOther (n : nat).
Inductive CmdReg : Set := COMMAND | CmdRegOther (n : nat).
Inductive EpReg : Set :=
  TGT_COREID | REQ_REM_ADDR | REQ_REM_SIZE | REQ_FLAGS | EpRegOther (n : nat).

Inductive Reg : Set :=
| DtuR (r : DtuReg)
| CmdR (r : CmdReg)
| EpR (ep : Z) (r : EpReg).

Definition Reg_eq_dec (a b : Reg) : {a = b} + {a <> b}.
Proof. repeat decide equality. Defined.

(** Modelled from the spec: the storage of the register file ([RegFile],
    whose source is not part of [dtu.cc]).  [get] and [set] have no side
    effect beyond storage, and a register holds a [reg_t]. *)
Module RegFile.
Definition t : Type := Reg -> Z.

Definition get (rf : t) (r : Reg) : Z := wrap64 (rf r).

Definition set (rf : t) (r : Reg) (v : Z) : t :=
  fun r' => if Reg_eq_dec r r' then wrap64 v else rf r'.

End RegFile.

(** ** Commands *)

(** The opcodes, numbered as the table [cmdNames] of [dtu.cc] indexes them.
    [CommandOpcode] is a scoped enumeration, hence the module. *)
Module CommandOpcode.
Inductive t : Set :=
  IDLE | SEND | REPLY | READ | WRITE | INC_READ_PTR | WAKEUP_CORE.

Definition value (o : t) : Z :=
  match o with
  | IDLE => 0 | SEND => 1 | REPLY => 2 | READ => 3
  | WRITE => 4 | INC_READ_PTR => 5 | WAKEUP_CORE => 6
  end.

Definition of_value (z : Z) : option t :=
  match z with
  | 0 => Some IDLE | 1 => Some SEND | 2 => Some REPLY | 3 => Some READ
  | 4 => Some WRITE | 5 => Some INC_READ_PTR | 6 => Some WAKEUP_CORE
  | _ => None
  end.
End CommandOpcode.

(** [Dtu::Command]: an opcode, of an enumeration, and an endpoint id, an
    [unsigned]; both are 32 bits wide.  The opcode is kept as the number
    the [static_cast] stores (it does not check it), the endpoint id next
    to it; [getCommand], the only place that builds a command, narrows
    both to 32 bits. *)
Record Command : Set := mkCommand { opcode : Z; epId : Z }.

(** What the two members of a command can hold. *)
Definition Command_wf (c : Command) : Prop :=
  is_u32 (opcode c) /\ is_u32 (epId c).

(** ** Sender states *)

Inductive NocPacketType : Set :=
  MESSAGE | READ_REQ | WRITE_REQ | CACHE_MEM_REQ | CACHE_MEM_REQ_FUNC.

Inductive MemReqType : Set := TRANSFER | HEADER.

Inductive SenderState : Set :=
| NocSenderState (packetType : NocPacketType)
| MemSenderState (epId : Z) (mid : Z) (type : MemReqType)
| ForeignSenderState (tag : nat).

Definition NocPacketType_eqb (a b : NocPacketType) : bool :=
  match a, b with
  | MESSAGE, MESSAGE | READ_REQ, READ_REQ | WRITE_REQ, WRITE_REQ
  | CACHE_MEM_REQ, CACHE_MEM_REQ
  | CACHE_MEM_REQ_FUNC, CACHE_MEM_REQ_FUNC => true
  | _, _ => false
  end.

(** ** What the engine takes from the rest of the simulator *)

(** The memory commands of a packet and the attributes [dtu.cc] asks of
    them ([mem/packet.hh]). *)
Class MemCmdInfo : Type := {
  MemCmd : Type;
  MemCmd_eq_dec : forall a b : MemCmd, {a = b} + {a <> b};
  CleanEvict : MemCmd;
  InvalidateReq : MemCmd;
  cmd_isRead : MemCmd -> bool;
  cmd_isWrite : MemCmd -> bool;
  cmd_isResponse : MemCmd -> bool;
  cmd_isError : MemCmd -> bool;
  cmd_needsResponse : MemCmd -> bool
}.

(** The constants of [mem/dtu/dtu.hh]: the two permission flags of a memory
    endpoint and the width of the opcode field.  The field holds the
    opcodes that [cmdNames] lists, so that it is not empty, and
    [getCommand] shifts a [reg_t] by its width, which C++ defines for a
    width below 64 only: the constant is taken within these bounds. *)
Class DtuDecls : Type := {
  READ : Z;
  WRITE : Z;
  numCmdOpcodeBits : Z;
  numCmdOpcodeBits_defined : 0 < numCmdOpcodeBits < 64
}.

(** [NocAddr] ([mem/dtu/noc_addr.hh]): the address built from a core id, an
    endpoint id and an offset, and the offset field of an address. *)
Class NocAddrCodec : Type := {
  NocAddr_getAddr : Z -> Z -> Z -> Z;
  NocAddr_offset : Z -> Z
}.

(** The parameters the engine is constructed from ([DtuParams], with
    what the constructor asks of the system and of [BaseDtu]); the members
    initialised from them never change. *)
Class DtuParams : Type := {
  memory_ep : Z;
  memory_pe : Z;
  memory_offset : Z;
  memory_size : Z;
  num_endpoints : Z;
  num_cmd_epid_bits : Z;
  register_access_latency : Z;
  regfile_base_addr : Z;
  buf_size : Z;
  max_noc_packet_size : Z;
  system_masterId : Z;
  system_isAtomicMode : bool
}.

(** The clock of the engine ([ClockedObject]). *)
Class Clock : Type := {
  clockEdge : Z -> Z;
  ticksToCycles : Z -> Z
}.

(** ** How a method ends

    A failed [assert], a [panic], or a sender state that is missing or of
    another class halt the simulation; so does, here, an operation that
    C++ leaves undefined, of which nothing is known. *)
Inductive Fatal : Set := AssertionFailed | Panicked | NoSenderState | Undefined.

Inductive Outcome (A : Type) : Type :=
| Done (a : A)
| Halt (f : Fatal).
Arguments Done {A} a.
Arguments Halt {A} f.

(** ** Packets *)

Section Engine.
Context {MC : MemCmdInfo} {DD : DtuDecls} {NA : NocAddrCodec} {CK : Clock}
        {P : DtuParams}.

Record Request : Type := mkRequest { paddr : Z; req_masterId : Z }.

(** The fields of a [Packet] the engine reads or writes.  The sender
    states form a stack, its top first; the payload is a list of bytes. *)
Record Packet : Type := mkPacket {
  cmd : MemCmd;
  addr : Z;
  size : Z;
  headerDelay : Z;
  payloadDelay : Z;
  senderState : list SenderState;
  req : Request;
  data : list Z
}.

Definition getAddr (pkt : Packet) : Z := addr pkt.
Definition getSize (pkt : Packet) : Z := size pkt.
Definition isRead (pkt : Packet) : bool := cmd_isRead (cmd pkt).
Definition isWrite (pkt : Packet) : bool := cmd_isWrite (cmd pkt).
Definition isResponse (pkt : Packet) : bool := cmd_isResponse (cmd pkt).
Definition isError (pkt : Packet) : bool := cmd_isError (cmd pkt).
Definition needsResponse (pkt : Packet) : bool := cmd_needsResponse (cmd pkt).

Definition setAddr (pkt : Packet) (a : Z) : Packet :=
  mkPacket (cmd pkt) a (size pkt) (headerDelay pkt) (payloadDelay pkt)
           (senderState pkt) (req pkt) (data pkt).

Definition setPaddr (pkt : Packet) (a : Z) : Packet :=
  mkPacket (cmd pkt) (addr pkt) (size pkt) (headerDelay pkt)
           (payloadDelay pkt) (senderState pkt)
           (mkRequest a (req_masterId (req pkt))) (data pkt).

Definition setMasterId (pkt : Packet) (m : Z) : Packet :=
  mkPacket (cmd pkt) (addr pkt) (size pkt) (headerDelay pkt)
           (payloadDelay pkt) (senderState pkt)
           (mkRequest (paddr (req pkt)) m) (data pkt).

Definition pushSenderState (pkt : Packet) (st : SenderState) : Packet :=
  mkPacket (cmd pkt) (addr pkt) (size pkt) (headerDelay pkt)
           (payloadDelay pkt) (st :: senderState pkt) (req pkt) (data pkt).

Definition clearDelays (pkt : Packet) : Packet :=
  mkPacket (cmd pkt) (addr pkt) (size pkt) 0 0 (senderState pkt) (req pkt) (data pkt).

(** A packet as the simulator hands it over: a 64-bit address and a
    32-bit size. *)
Definition Packet_wf (pkt : Packet) : Prop :=
  is_u64 (addr pkt) /\ is_u32 (size pkt).

(** ** The engine's state *)

(** What leaves the engine, in the order it happens: calls on the ports
    of [BaseDtu] and on the event queue. *)
Inductive Event : Type :=
| SendAtomicMemRequest (pkt : Packet)
| SchedMemRequest (pkt : Packet) (when : Z)
| SendFunctionalNocRequest (pkt : Packet)
| SendAtomicNocRequest (pkt : Packet)
| SchedNocRequest (pkt : Packet) (when : Z)
| SendCacheMemResponse (pkt : Packet)
| SchedCpuResponse (pkt : Packet) (when : Z)
| SchedNocResponse (pkt : Packet) (when : Z)
| SchedNocRequestFinished (when : Z)
| ScheduleExecuteCommandEvent (when : Z)
| FreeRequest (pkt : Packet).

Inductive Status : Set := Active | Suspended | Halted.

(** A thread context of the system, with the [_denySuspend] pin of the
    CPU it runs on. *)
Record ThreadContext : Set := mkThreadContext {
  status : Status;
  _denySuspend : bool
}.

(** Modelled from the spec: [ThreadContext::activate], which is not part
    of [dtu.cc]; a suspended context that is woken up runs again. *)
Definition activate (tc : ThreadContext) : ThreadContext :=
  mkThreadContext Active (_denySuspend tc).

Definition setDenySuspend (tc : ThreadContext) (b : bool) : ThreadContext :=
  mkThreadContext (status tc) b.

(** The members of [Dtu] fixed by the constructor. *)
Definition masterId : Z := system_masterId.
Definition memEp : Z := memory_ep.
Definition atomicMode : bool := system_isAtomicMode.
Definition numEndpoints : Z := num_endpoints.
Definition numCmdEpidBits : Z := num_cmd_epid_bits.
Definition registerAccessLatency : Z := register_access_latency.
Definition regFileBaseAddr : Z := regfile_base_addr.
Definition maxNocPacketSize : Z := max_noc_packet_size.

(** The members of [Dtu] (and of the system) that change while the
    engine runs.  [U] is the state of the three sub-units. *)
Context {U : Type}.

Record Dtu : Type := mkDtu {
  regFile : RegFile.t;
  cmdInProgress : bool;
  threadContexts : list ThreadContext;
  units : U;
  trace : list Event
}.

Definition with_regFile (s : Dtu) (rf : RegFile.t) : Dtu :=
  mkDtu rf (cmdInProgress s) (threadContexts s) (units s) (trace s).

Definition with_cmdInProgress (s : Dtu) (b : bool) : Dtu :=
  mkDtu (regFile s) b (threadContexts s) (units s) (trace s).

Definition with_threadContexts (s : Dtu) (l : list ThreadContext) : Dtu :=
  mkDtu (regFile s) (cmdInProgress s) l (units s) (trace s).

Definition with_trace (s : Dtu) (t : list Event) : Dtu :=
  mkDtu (regFile s) (cmdInProgress s) (threadContexts s) (units s) t.

(** ** The monad of the engine

    A method either returns, with a value and the new state, or halts
    the simulation. *)
Definition M (A : Type) : Type := Dtu -> Outcome (A * Dtu).

Definition ret {A} (a : A) : M A := fun s => Done (a, s).

Definition bind {A B} (m : M A) (k : A -> M B) : M B :=
  fun s => match m s with
           | Done (a, s') => k a s'
           | Halt f => Halt f
           end.

Definition halt {A} (f : Fatal) : M A := fun _ => Halt f.
Definition this : M Dtu := fun s => Done (s, s).
Definition update (f : Dtu -> Dtu) : M unit := fun s => Done (tt, f s).

Definition assert (b : bool) : M unit :=
  if b then ret tt else halt AssertionFailed.

Definition panic {A} : M A := halt Panicked.

(** What follows is defined in C++ under the condition only. *)
Definition defined (b : bool) : M unit :=
  if b then ret tt else halt Undefined.

Definition emit (e : Event) : M unit :=
  update (fun s => with_trace s (trace s ++ [e])).

Notation "x <- m ;; k" := (bind m (fun x => k))
  (at level 61, m at next level, right associativity).
Notation "m ;;; k" := (bind m (fun _ => k))
  (at level 61, right associativity).

(** ** The collaborators of the engine *)

(** What a port hands back for a request sent atomically or
    functionally: the packet, turned into its response. *)
Class Ports : Type := {
  memAtomic : Packet -> Packet;
  nocAtomic : Packet -> Packet;
  nocFunctional : Packet -> Packet
}.

(** [RegFile::handleRequest]: serves a packet addressed by register
    offset and reports whether the command register was written. *)
Class RegFileRequests : Type := {
  RegFile_handleRequest : RegFile.t -> Packet -> bool -> RegFile.t * Packet * bool
}.

(** The entry points of the message, memory and transfer units that
    [dtu.cc] calls.  Each may change the whole engine, and may halt. *)
Class SubUnits : Type := {
  msgUnit_startTransmission : Command -> M unit;
  msgUnit_incrementReadPtr : Z -> M unit;
  msgUnit_recvFromMem : Command -> Packet -> M unit;
  msgUnit_recvFromNoc : Packet -> M unit;
  memUnit_startRead : Command -> M unit;
  memUnit_startWrite : Command -> M unit;
  memUnit_writeComplete : Packet -> M unit;
  memUnit_readComplete : Packet -> M unit;
  memUnit_recvFromNoc : Packet -> M unit;
  memUnit_recvFunctionalFromNoc : Packet -> M unit;
  xferUnit_recvMemResponse : Z -> Packet -> M unit
}.

Context {PT : Ports} {RH : RegFileRequests} {SU : SubUnits}.

(** ** The methods of [BaseDtu] the engine calls *)

Definition sendAtomicMemRequest (pkt : Packet) : M Packet :=
  emit (SendAtomicMemRequest pkt) ;;; ret (memAtomic pkt).

Definition sendAtomicNocRequest (pkt : Packet) : M Packet :=
  emit (SendAtomicNocRequest pkt) ;;; ret (nocAtomic pkt).

Definition sendFunctionalNocRequest (pkt : Packet) : M Packet :=
  emit (SendFunctionalNocRequest pkt) ;;; ret (nocFunctional pkt).

Definition schedMemRequest (pkt : Packet) (when : Z) : M unit :=
  emit (SchedMemRequest pkt when).

Definition schedNocRequest (pkt : Packet) (when : Z) : M unit :=
  emit (SchedNocRequest pkt when).

Definition sendCacheMemResponse (pkt : Packet) : M unit :=
  emit (SendCacheMemResponse pkt).

Definition schedCpuResponse (pkt : Packet) (when : Z) : M unit :=
  emit (SchedCpuResponse pkt when).

Definition schedNocResponse (pkt : Packet) (when : Z) : M unit :=
  emit (SchedNocResponse pkt when).

Definition schedNocRequestFinished (when : Z) : M unit :=
  emit (SchedNocRequestFinished when).

Definition schedule_executeCommandEvent (when : Z) : M unit :=
  emit (ScheduleExecuteCommandEvent when).

(** [Packet::popSenderState]: the top of the stack and the packet
    without it. *)
Definition popSenderState (pkt : Packet) : M (SenderState * Packet) :=
  match senderState pkt with
  | [] => halt NoSenderState
  | st :: rest =>
      ret (st, mkPacket (cmd pkt) (addr pkt) (size pkt) (headerDelay pkt)
                        (payloadDelay pkt) rest (req pkt) (data pkt))
  end.

(** ** [dtu.cc] *)

Definition freeRequest (pkt : Packet) : M unit := emit (FreeRequest pkt).

(** The sum of the two widths is an [unsigned] one, of 32 bits.  The
    masks are computed in [reg_t], of 64 bits: a shift by
    [numCmdOpcodeBits] is by less than that, one by [numCmdEpidBits] is
    defined for a width below 64 only, which the assertion does not
    ensure when the sum wraps around.  The two fields are stored into
    the 32-bit members of the command. *)
Definition getCommand : M Command :=
  assert (wrap32 (numCmdEpidBits + numCmdOpcodeBits) <=? 64) ;;;
  defined ((0 <=? numCmdEpidBits) && (numCmdEpidBits <? 64)) ;;;
  s <- this ;;
  let opcodeMask := wrap64 (wrap64 (Z.shiftl 1 numCmdOpcodeBits) - 1) in
  let epidMask :=
    wrap64 (Z.shiftl (wrap64 (wrap64 (Z.shiftl 1 numCmdEpidBits) - 1))
                     numCmdOpcodeBits) in
  let reg := RegFile.get (regFile s) (CmdR COMMAND) in
  ret (mkCommand (wrap32 (Z.land reg opcodeMask))
                 (wrap32 (Z.shiftr (Z.land reg epidMask) numCmdOpcodeBits))).

Definition finishCommand : M unit :=
  cmd <- getCommand ;;
  s <- this ;;
  assert (cmdInProgress s) ;;;
  update (fun s => with_regFile s (RegFile.set (regFile s) (CmdR COMMAND) 0)) ;;;
  update (fun s => with_cmdInProgress s false).

Definition wakeupCore : M unit :=
  s <- this ;;
  match threadContexts s with
  | [] => ret tt
  | tc :: rest =>
      match status tc with
      | Suspended => update (fun s => with_threadContexts s (activate tc :: rest))
      | _ => ret tt
      end
  end.

Definition executeCommand : M unit :=
  cmd <- getCommand ;;
  if opcode cmd =? CommandOpcode.value CommandOpcode.IDLE then ret tt
  else
    s <- this ;;
    assert (negb (cmdInProgress s)) ;;;
    assert (epId cmd <? numEndpoints) ;;;
    update (fun s => with_cmdInProgress s true) ;;;
    match CommandOpcode.of_value (opcode cmd) with
    | Some CommandOpcode.SEND
    | Some CommandOpcode.REPLY => msgUnit_startTransmission cmd
    | Some CommandOpcode.READ => memUnit_startRead cmd
    | Some CommandOpcode.WRITE => memUnit_startWrite cmd
    | Some CommandOpcode.INC_READ_PTR =>
        msgUnit_incrementReadPtr (epId cmd) ;;; finishCommand
    | Some CommandOpcode.WAKEUP_CORE => wakeupCore ;;; finishCommand
    | _ => panic
    end.

Definition updateSuspendablePin : M unit :=
  s <- this ;;
  match threadContexts s with
  | [] => ret tt
  | tc :: rest =>
      let pendingMsgs := RegFile.get (regFile s) (DtuR MSG_CNT) >? 0 in
      update (fun s => with_threadContexts s (setDenySuspend tc pendingMsgs :: rest))
  end.

Definition completeMemRequest (pkt : Packet) : M unit :=
  assert (negb (isError pkt)) ;;;
  assert (isResponse pkt) ;;;
  popped <- popSenderState pkt ;;
  let '(senderState, pkt) := popped in
  match senderState with
  | MemSenderState epId mid type =>
      let pkt := setMasterId pkt mid in
      match type with
      | TRANSFER => xferUnit_recvMemResponse epId pkt
      | HEADER => cmd <- getCommand ;; msgUnit_recvFromMem cmd pkt
      end ;;;
      freeRequest pkt
  | _ => halt NoSenderState
  end.

Definition sendMemRequest (pkt : Packet) (epId : Z) (type : MemReqType)
                          (delay : Z) : M unit :=
  let senderState := MemSenderState epId (req_masterId (req pkt)) type in
  let pkt := setMasterId pkt masterId in
  let pkt := pushSenderState pkt senderState in
  if atomicMode then
    pkt <- sendAtomicMemRequest pkt ;;
    completeMemRequest pkt
  else
    schedMemRequest pkt (clockEdge delay).

(** The packet is returned as the call leaves it. *)
Definition completeNocRequest (pkt : Packet) : M Packet :=
  popped <- popSenderState pkt ;;
  let '(senderState, pkt) := popped in
  match senderState with
  | NocSenderState packetType =>
      if NocPacketType_eqb packetType CACHE_MEM_REQ then
        s <- this ;;
        let targetAddr :=
          RegFile.get (regFile s) (EpR (wrap32 (numEndpoints - 1)) REQ_REM_ADDR) in
        let reqAddr := wrap64 (NocAddr_offset (getAddr pkt) - targetAddr) in
        let pkt := setAddr pkt reqAddr in
        let pkt := setPaddr pkt reqAddr in
        sendCacheMemResponse pkt ;;;
        ret pkt
      else if negb (NocPacketType_eqb packetType CACHE_MEM_REQ_FUNC) then
        if isWrite pkt then memUnit_writeComplete pkt ;;; ret pkt
        else if isRead pkt then memUnit_readComplete pkt ;;; ret pkt
        else panic
      else ret pkt
  | _ => halt NoSenderState
  end.

Definition sendNocRequest (type : NocPacketType) (pkt : Packet) (delay : Z)
                          (functional : bool) : M Packet :=
  let senderState := NocSenderState type in
  let pkt := pushSenderState pkt senderState in
  if functional then
    pkt <- sendFunctionalNocRequest pkt ;;
    completeNocRequest pkt
  else if atomicMode then
    pkt <- sendAtomicNocRequest pkt ;;
    completeNocRequest pkt
  else
    schedNocRequest pkt (clockEdge delay) ;;;
    ret pkt.

Definition handleNocRequest (pkt : Packet) : M unit :=
  assert (negb (isError pkt)) ;;;
  match senderState pkt with
  | NocSenderState MESSAGE :: _ => msgUnit_recvFromNoc pkt
  | NocSenderState READ_REQ :: _
  | NocSenderState WRITE_REQ :: _
  | NocSenderState CACHE_MEM_REQ :: _ => memUnit_recvFromNoc pkt
  | NocSenderState CACHE_MEM_REQ_FUNC :: _ => memUnit_recvFunctionalFromNoc pkt
  | _ => halt NoSenderState
  end.

(** The [unsigned flags] of the memory endpoint. *)
Definition memEpFlags (s : Dtu) : Z :=
  wrap32 (RegFile.get (regFile s) (EpR memEp REQ_FLAGS)).

(** The result is the returned [bool] and the packet as the call
    leaves it. *)
Definition handleCacheMemRequest (pkt : Packet) (functional : bool)
  : M (bool * Packet) :=
  if MemCmd_eq_dec (cmd pkt) CleanEvict then
    assert (negb (needsResponse pkt)) ;;;
    ret (true, pkt)
  else if MemCmd_eq_dec (cmd pkt) InvalidateReq then
    ret (false, pkt)
  else
    s <- this ;;
    let targetCoreId := wrap32 (RegFile.get (regFile s) (EpR memEp TGT_COREID)) in
    let targetAddr := RegFile.get (regFile s) (EpR memEp REQ_REM_ADDR) in
    let remoteSize := RegFile.get (regFile s) (EpR memEp REQ_REM_SIZE) in
    let flags := memEpFlags s in
    if (isWrite pkt && (Z.land flags WRITE =? 0))
       || (isRead pkt && (Z.land flags READ =? 0)) then
      ret (false, pkt)
    else if (wrap64 (getAddr pkt + getSize pkt) <=? getAddr pkt)
            || (wrap64 (getAddr pkt + getSize pkt) >? remoteSize) then
      ret (false, pkt)
    else
      let pkt :=
        setAddr pkt (NocAddr_getAddr targetCoreId 0
                                     (wrap64 (targetAddr + getAddr pkt))) in
      let type := if functional then CACHE_MEM_REQ_FUNC else CACHE_MEM_REQ in
      pkt <- sendNocRequest type pkt 1 functional ;;
      ret (true, pkt).

(** The packet is returned as the call leaves it.  [headerDelay] and
    [payloadDelay] are 32-bit members of the packet, and so is their
    sum; the two numbers of cycles are added in 64 bits. *)
Definition forwardRequestToRegFile (pkt : Packet) (isCpuRequest : bool)
  : M Packet :=
  s <- this ;;
  let oldAddr := getAddr pkt in
  let pkt := setAddr pkt (wrap64 (oldAddr - regFileBaseAddr)) in
  let '(rf, pkt, commandWritten) :=
    RegFile_handleRequest (regFile s) pkt isCpuRequest in
  update (fun s => with_regFile s rf) ;;;
  let pkt := setAddr pkt oldAddr in
  updateSuspendablePin ;;;
  if negb atomicMode then
    let transportDelay :=
      ticksToCycles (wrap32 (headerDelay pkt + payloadDelay pkt)) in
    let when := clockEdge (wrap64 (transportDelay + registerAccessLatency)) in
    let pkt := clearDelays pkt in
    (if isCpuRequest then schedCpuResponse pkt when
     else schedNocRequestFinished (clockEdge 1) ;;; schedNocResponse pkt when) ;;;
    (if commandWritten then schedule_executeCommandEvent when else ret tt) ;;;
    ret pkt
  else if commandWritten then
    executeCommand ;;; ret pkt
  else ret pkt.

Definition handleCpuRequest (pkt : Packet) : M Packet :=
  forwardRequestToRegFile pkt true.

(** The constructor.  The member initialisers leave the register file as
    [RegFile]'s own constructor built it, [fresh], no command in progress
    and nothing sent; the body asserts that a buffer holds a NoC packet
    and configures the memory endpoint. *)
Definition initialised (fresh : RegFile.t) (contexts : list ThreadContext)
                       (u : U) : Dtu :=
  mkDtu fresh false contexts u [].

(** The body of the constructor. *)
Definition Dtu_body : M unit :=
  assert (buf_size >=? maxNocPacketSize) ;;;
  update (fun s => with_regFile s (RegFile.set (regFile s) (EpR memEp TGT_COREID) memory_pe)) ;;;
  update (fun s => with_regFile s (RegFile.set (regFile s) (EpR memEp REQ_REM_ADDR) memory_offset)) ;;;
  update (fun s => with_regFile s (RegFile.set (regFile s) (EpR memEp REQ_REM_SIZE) memory_size)) ;;;
  update (fun s => with_regFile s (RegFile.set (regFile s) (EpR memEp REQ_FLAGS) (Z.lor READ WRITE))).

(** [Dtu::Dtu]: the engine, when the body returns. *)
Definition Dtu_new (fresh : RegFile.t) (contexts : list ThreadContext) (u : U)
  : Outcome Dtu :=
  match Dtu_body (initialised fresh contexts u) with
  | Done (_, s) => Done s
  | Halt f => Halt f
  end.
End Engine.

(** ** A configuration to run the engine on

    A six-command table, the constants and the address layout of one
    build, a clock of 1000 ticks, ports that answer at once, a register
    file with the message counter at offset 0 and the command register at
    offset 8, and sub-units that do nothing but consume a message. *)
Module Bench.
Inductive Cmd : Set :=
  ReadReq | ReadResp | WriteReq | WriteResp | CleanEvictCmd | InvalidateCmd.

Definition Cmd_eq_dec (a b : Cmd) : {a = b} + {a <> b}.
Proof. decide equality. Defined.

Definition respond (c : Cmd) : Cmd :=
  match c with
  | ReadReq => ReadResp
  | WriteReq => WriteResp
  | c => c
  end.

#[export] Instance memCmdInfo : MemCmdInfo := {|
  MemCmd := Cmd;
  MemCmd_eq_dec := Cmd_eq_dec;
  CleanEvict := CleanEvictCmd;
  InvalidateReq := InvalidateCmd;
  cmd_isRead c := match c with ReadReq | ReadResp => true | _ => false end;
  cmd_isWrite c := match c with WriteReq | WriteResp => true | _ => false end;
  cmd_isResponse c := match c with ReadResp | WriteResp => true | _ => false end;
  cmd_isError _ := false;
  cmd_needsResponse c :=
    match c with ReadReq | WriteReq | InvalidateCmd => true | _ => false end
|}.

#[export] Instance dtuDecls : DtuDecls := {|
  READ := 1;
  WRITE := 2;
  numCmdOpcodeBits := 3;
  numCmdOpcodeBits_defined := conj eq_refl eq_refl
|}.

#[export] Instance nocAddrCodec : NocAddrCodec := {|
  NocAddr_getAddr coreId epId offset :=
    Z.lor (Z.lor (Z.shiftl 1 63) (Z.shiftl coreId 52))
          (Z.lor (Z.shiftl epId 44) offset);
  NocAddr_offset a := Z.land a (Z.ones 44)
|}.

#[export] Instance clock : Clock := {|
  clockEdge cycles := cycles * 1000;
  ticksToCycles ticks := (ticks + 999) / 1000
|}.

Definition makeResponse (pkt : Packet) : Packet :=
  mkPacket (respond (cmd pkt)) (addr pkt) (size pkt) (headerDelay pkt)
           (payloadDelay pkt) (senderState pkt) (req pkt) (data pkt).

#[export] Instance ports : Ports := {|
  memAtomic := makeResponse;
  nocAtomic := makeResponse;
  nocFunctional := makeResponse
|}.

(** Little-endian value of a list of bytes. *)
Fixpoint le_value (bytes : list Z) : Z :=
  match bytes with
  | [] => 0
  | b :: rest => b mod 256 + 256 * le_value rest
  end.

Definition reg_at (offset : Z) : Reg :=
  if offset =? 0 then DtuR MSG_CNT
  else if offset =? 8 then CmdR COMMAND
  else DtuR (DtuRegOther (Z.to_nat offset)).

#[export] Instance regFileRequests : RegFileRequests := {|
  RegFile_handleRequest rf pkt isCpuRequest :=
    if isWrite pkt then
      (RegFile.set rf (reg_at (addr pkt)) (le_value (data pkt)),
       makeResponse pkt, addr pkt =? 8)
    else (rf, makeResponse pkt, false)
|}.

Definition consumeMessage : M (U := unit) unit :=
  update (fun s =>
    with_regFile s (RegFile.set (regFile s) (DtuR MSG_CNT)
                                (RegFile.get (regFile s) (DtuR MSG_CNT) - 1))).

#[export] Instance subUnits : SubUnits (U := unit) := {|
  msgUnit_startTransmission _ := ret tt;
  msgUnit_incrementReadPtr _ := consumeMessage;
  msgUnit_recvFromMem _ _ := ret tt;
  msgUnit_recvFromNoc _ := ret tt;
  memUnit_startRead _ := ret tt;
  memUnit_startWrite _ := ret tt;
  memUnit_writeComplete _ := ret tt;
  memUnit_readComplete _ := ret tt;
  memUnit_recvFromNoc _ := ret tt;
  memUnit_recvFunctionalFromNoc _ := ret tt;
  xferUnit_recvMemResponse _ _ := ret tt
|}.

Definition core : ThreadContext := mkThreadContext Suspended false.

(** Eight endpoints, the last one the memory endpoint, a memory region
    of 0x1000 bytes at 0x40000 of core 5. *)
Definition params (isAtomicMode : bool) : DtuParams := {|
  memory_ep := 7;
  memory_pe := 5;
  memory_offset := 0x40000;
  memory_size := 0x1000;
  num_endpoints := 8;
  num_cmd_epid_bits := 8;
  register_access_latency := 2;
  regfile_base_addr := 0x5C0000000;
  buf_size := 1024;
  max_noc_packet_size := 512;
  system_masterId := 3;
  system_isAtomicMode := isAtomicMode
|}.

#[export] Instance atomicParams : DtuParams := params true.
Definition timedParams : DtuParams := params false.

(** The same engine with its memory endpoint moved to endpoint 0. *)
Definition firstEpParams : DtuParams := {|
  memory_ep := 0;
  memory_pe := 5;
  memory_offset := 0x40000;
  memory_size := 0x1000;
  num_endpoints := 8;
  num_cmd_epid_bits := 8;
  register_access_latency := 2;
  regfile_base_addr := 0x5C0000000;
  buf_size := 1024;
  max_noc_packet_size := 512;
  system_masterId := 3;
  system_isAtomicMode := true
|}.

(** A register file that reads zero everywhere, to construct the bench
    engines on. *)
Definition blank : RegFile.t := fun _ => 0.

(** The engine the constructor returns for given parameters (and the
    initialised members, had its assertion failed). *)
Definition bootWith (P : DtuParams) : Dtu (U := unit) :=
  match Dtu_new (P := P) blank [core] tt with
  | Done s => s
  | Halt _ => initialised blank [core] tt
  end.

Definition boot : Dtu (U := unit) := bootWith atomicParams.

(** The same engine with an endpoint field of 61 bits, which with the
    opcode field fills the register. *)
Definition longEpidParams : DtuParams := {|
  memory_ep := 7;
  memory_pe := 5;
  memory_offset := 0x40000;
  memory_size := 0x1000;
  num_endpoints := 8;
  num_cmd_epid_bits := 61;
  register_access_latency := 2;
  regfile_base_addr := 0x5C0000000;
  buf_size := 1024;
  max_noc_packet_size := 512;
  system_masterId := 3;
  system_isAtomicMode := true
|}.

(** The same engine with buffers too small for a NoC packet. *)
Definition smallBufParams : DtuParams := {|
  memory_ep := 7;
  memory_pe := 5;
  memory_offset := 0x40000;
  memory_size := 0x1000;
  num_endpoints := 8;
  num_cmd_epid_bits := 8;
  register_access_latency := 2;
  regfile_base_addr := 0x5C0000000;
  buf_size := 256;
  max_noc_packet_size := 512;
  system_masterId := 3;
  system_isAtomicMode := true
|}.

(** The same engine with an endpoint field too wide for the register. *)
Definition wideParams : DtuParams := {|
  memory_ep := 7;
  memory_pe := 5;
  memory_offset := 0x40000;
  memory_size := 0x1000;
  num_endpoints := 8;
  num_cmd_epid_bits := 62;
  register_access_latency := 2;
  regfile_base_addr := 0x5C0000000;
  buf_size := 1024;
  max_noc_packet_size := 512;
  system_masterId := 3;
  system_isAtomicMode := true
|}.

Definition packet (c : Cmd) (a sz : Z) (bytes : list Z) : Packet :=
  mkPacket c a sz 0 0 [] (mkRequest a 11) bytes.
End Bench.

(** ** The tester

    [cpu/testers/dtutest/dtutest.cc]: a master that writes four bytes to
    the scratchpad, reads them back through the DTU, writes four bytes
    through the DTU and reads them back from the scratchpad, one request
    of one byte per tick.  What the port answers and what the clock reads
    are arguments of the methods; what the tester does to the port and
    to the event queue is recorded in a trace. *)
Module DtuTest.

Inductive Cmd : Set := ReadReq | WriteReq.

(** A one-byte request of the tester.  The byte of a read is the one the
    allocation left there, [None]. *)
Record Packet : Set := mkPacket {
  cmd : Cmd;
  paddr : Z;
  size : Z;
  masterId : Z;
  contextId : Z;
  threadId : Z;
  byte : option Z
}.

Inductive Event : Set :=
| SendAtomic (pkt : Packet)
| SendTimingReq (pkt : Packet)
| Delete (pkt : Packet)
| ScheduleTick (when : Z).

(** The members of the tester that do not change. *)
Record Config : Set := mkConfig {
  id : Z;
  master : Z;
  atomic : bool
}.

(** What the clock reads during a call: [clockEdge(Cycles(1))] and
    [curCycle()]. *)
Record Clock : Set := mkClock {
  nextEdge : Z;
  curCycle : Z
}.

(** [counter] is the static counter of [tick], an [int] that only ever
    counts up from zero; it is carried as an integer, without the
    overflow a run of 2^31 ticks would meet. *)
Record State : Set := mkState {
  counter : Z;
  retryPkt : option Packet;
  trace : list Event
}.

Definition record (st : State) (evs : list Event) : State :=
  mkState (counter st) (retryPkt st) (trace st ++ evs).

Definition completeRequest (pkt : Packet) (st : State) : State :=
  record st [Delete pkt].

(** [accepted] is what [sendTimingReq] returns. *)
Definition sendPkt (cfg : Config) (accepted : bool) (pkt : Packet) (st : State)
  : bool * State :=
  if atomic cfg then
    (true, completeRequest pkt (record st [SendAtomic pkt]))
  else
    let st := record st [SendTimingReq pkt] in
    let retry := negb accepted in
    if retry then (false, mkState (counter st) (Some pkt) (trace st))
    else (true, st).

Definition recvRetry (accepted : bool) (clk : Clock) (st : State)
  : Outcome State :=
  match retryPkt st with
  | None => Halt AssertionFailed
  | Some pkt =>
      let st := record st [SendTimingReq pkt] in
      if accepted then
        Done (record (mkState (counter st) None (trace st))
                     [ScheduleTick (nextEdge clk)])
      else Done st
  end.

(** The request [tick] builds for a value of the counter, if any. *)
Definition request (cfg : Config) (clk : Clock) (counter : Z) : option Packet :=
  if counter <? 4 then
    Some (mkPacket WriteReq (wrap64 counter) 1 (master cfg) (id cfg) 0
                   (Some (counter mod 256)))
  else if counter <? 8 then
    Some (mkPacket ReadReq (wrap64 (counter - 4 + 0x10000000)) 1 (master cfg)
                   (id cfg) 0 None)
  else if counter <? 12 then
    Some (mkPacket WriteReq (wrap64 (counter + 0x10000000)) 1 (master cfg)
                   (id cfg) 0 (Some (curCycle clk mod 256)))
  else if counter <? 16 then
    Some (mkPacket ReadReq (wrap64 (counter - 4)) 1 (master cfg) (id cfg) 0 None)
  else None.

Definition tick (cfg : Config) (accepted : bool) (clk : Clock) (st : State)
  : State :=
  let st :=
    match request cfg clk (counter st) with
    | None => st
    | Some pkt =>
        let '(sent, st) := sendPkt cfg accepted pkt st in
        if sent then record st [ScheduleTick (nextEdge clk)] else st
    end in
  mkState (counter st + 1) (retryPkt st) (trace st).

(** [n] ticks in a row, the port and the clock answering by the value of
    the counter. *)
Fixpoint ticks (cfg : Config) (port : Z -> bool) (clock : Z -> Clock)
               (n : nat) (st : State) : State :=
  match n with
  | O => st
  | S n =>
      ticks cfg port clock n (tick cfg (port (counter st)) (clock (counter st)) st)
  end.

(** [n] retries the port refuses. *)
Fixpoint refusedRetries (clk : Clock) (n : nat) (st : State) : Outcome State :=
  match n with
  | O => Done st
  | S n =>
      match recvRetry false clk st with
      | Done st => refusedRetries clk n st
      | Halt f => Halt f
      end
  end.

(** The requests handed to the port, in order. *)
Fixpoint sends (evs : list Event) : list Packet :=
  match evs with
  | [] => []
  | SendAtomic pkt :: evs | SendTimingReq pkt :: evs => pkt :: sends evs
  | _ :: evs => sends evs
  end.

(** The requests [n] ticks build from the value [c] of the counter on. *)
Fixpoint plan (cfg : Config) (clock : Z -> Clock) (c : Z) (n : nat)
  : list Packet :=
  match n with
  | O => []
  | S n =>
      match request cfg (clock c) c with
      | Some pkt => [pkt]
      | None => []
      end ++ plan cfg clock (c + 1) n
  end.

(** The first tester as constructed: the counter is zero, no request
    waits for a retry and the first tick is scheduled for [curTick]. *)
Definition init (curTick : Z) : State := mkState 0 None [ScheduleTick curTick].

(** A tester in timed mode, one in atomic mode, and a clock for them. *)
Definition tester : Config := mkConfig 0 9 false.
Definition atomicTester : Config := mkConfig 0 9 true.
Definition testerClock : Clock := mkClock 1000 0x123.
End DtuTest.

(** ** Vocabulary of the statements *)

Section Vocabulary.
Context {MC : MemCmdInfo} {DD : DtuDecls} {P : DtuParams} {U : Type}
        {RH : RegFileRequests}.

(** The widths of the two fields of the command register fit it. *)
Definition fieldsFit : Prop :=
  0 <= numCmdOpcodeBits /\ 0 <= numCmdEpidBits /\
  numCmdEpidBits + numCmdOpcodeBits <= 64.

(** The two fields of a register word, in full. *)
Definition decoded (reg : Z) : Command :=
  mkCommand (reg mod 2 ^ numCmdOpcodeBits)
            ((reg / 2 ^ numCmdOpcodeBits) mod 2 ^ numCmdEpidBits).

(** A command as its 32-bit members hold it. *)
Definition narrowed (c : Command) : Command :=
  mkCommand (wrap32 (opcode c)) (wrap32 (epId c)).

(** The command register reads zero only when no command is in
    progress. *)
Definition retiredWhenZero (s : Dtu (U := U)) : Prop :=
  RegFile.get (regFile s) (CmdR COMMAND) = 0 -> cmdInProgress s = false.

(** A computation keeps a property of the engine. *)
Definition preserves {A : Type} (I : Dtu (U := U) -> Prop) (m : M (U := U) A)
  : Prop :=
  forall s a s', I s -> m s = Done (a, s') -> I s'.

(** A property of the engine that does not depend on what was sent or
    scheduled, nor on the thread contexts. *)
Definition framed (I : Dtu (U := U) -> Prop) : Prop :=
  (forall s t, I s -> I (with_trace s t)) /\
  (forall s l, I s -> I (with_threadContexts s l)).

(** A computation that leaves the register file as it found it. *)
Definition keepsRegFile {A : Type} (m : M (U := U) A) : Prop :=
  forall s a s', m s = Done (a, s') -> regFile s' = regFile s.

(** What the register file answers to an access: it is handed the
    packet with the base address of the register file taken off. *)
Definition regAccess (s : Dtu (U := U)) (pkt : Packet) (isCpuRequest : bool)
  : RegFile.t * Packet * bool :=
  RegFile_handleRequest (regFile s)
    (setAddr pkt (wrap64 (addr pkt - regFileBaseAddr))) isCpuRequest.

(** The deny-suspend signal the attached core sees, if a core is
    attached. *)
Definition denySuspend (s : Dtu (U := U)) : option bool :=
  match threadContexts s with
  | [] => None
  | tc :: _ => Some (_denySuspend tc)
  end.
End Vocabulary.

Section ForwardingVocabulary.
Context {MC : MemCmdInfo} {DD : DtuDecls} {NA : NocAddrCodec} {P : DtuParams}
        {U : Type}.

(** The memory endpoint does not allow what the packet does. *)
Definition lacksPermission (s : Dtu (U := U)) (pkt : Packet) : Prop :=
  (isWrite pkt = true /\ Z.land (memEpFlags s) WRITE = 0) \/
  (isRead pkt = true /\ Z.land (memEpFlags s) READ = 0).

(** The bytes of the packet are none, or do not all lie in the region of
    the memory endpoint. *)
Definition outOfBounds (s : Dtu (U := U)) (pkt : Packet) : Prop :=
  size pkt = 0 \/ 2 ^ 64 <= addr pkt + size pkt \/
  RegFile.get (regFile s) (EpR memEp REQ_REM_SIZE) < addr pkt + size pkt.

(** The packet with its address moved into the region of the memory
    endpoint, on the core of that endpoint. *)
Definition translated (s : Dtu (U := U)) (pkt : Packet) : Packet :=
  setAddr pkt
    (NocAddr_getAddr
       (wrap32 (RegFile.get (regFile s) (EpR memEp TGT_COREID))) 0
       (wrap64 (RegFile.get (regFile s) (EpR memEp REQ_REM_ADDR) + addr pkt))).

(** A packet without its topmost sender state. *)
Definition popped (pkt : Packet) : Packet :=
  mkPacket (cmd pkt) (addr pkt) (size pkt) (headerDelay pkt) (payloadDelay pkt)
           (tl (senderState pkt)) (req pkt) (data pkt).
End ForwardingVocabulary.

Section CompletionVocabulary.
Context {MC : MemCmdInfo} {DD : DtuDecls} {NA : NocAddrCodec} {CK : Clock}
        {P : DtuParams} {U : Type}
        {PT : Ports} {RH : RegFileRequests} {SU : SubUnits (U := U)}.

(** The unit a completed memory request goes to, by the kind of the
    request. *)
Definition delivered (type : MemReqType) (epId : Z) (pkt : Packet)
  : M (U := U) unit :=
  match type with
  | TRANSFER => xferUnit_recvMemResponse epId pkt
  | HEADER => bind getCommand (fun cmd => msgUnit_recvFromMem cmd pkt)
  end.

(** The request as [sendMemRequest] sends it: under the master id of the
    engine, the one it had kept in the sender state. *)
Definition memRequest (pkt : Packet) (epId : Z) (type : MemReqType) : Packet :=
  pushSenderState (setMasterId pkt masterId)
                  (MemSenderState epId (req_masterId (req pkt)) type).

(** Every entry point of the three units keeps a property of the
    engine. *)
Definition unitsPreserve (I : Dtu (U := U) -> Prop) : Prop :=
  (forall cmd, preserves I (msgUnit_startTransmission cmd)) /\
  (forall ep, preserves I (msgUnit_incrementReadPtr ep)) /\
  (forall cmd pkt, preserves I (msgUnit_recvFromMem cmd pkt)) /\
  (forall pkt, preserves I (msgUnit_recvFromNoc pkt)) /\
  (forall cmd, preserves I (memUnit_startRead cmd)) /\
  (forall cmd, preserves I (memUnit_startWrite cmd)) /\
  (forall pkt, preserves I (memUnit_writeComplete pkt)) /\
  (forall pkt, preserves I (memUnit_readComplete pkt)) /\
  (forall pkt, preserves I (memUnit_recvFromNoc pkt)) /\
  (forall pkt, preserves I (memUnit_recvFunctionalFromNoc pkt)) /\
  (forall ep pkt, preserves I (xferUnit_recvMemResponse ep pkt)).

(** The thread contexts once the first one was woken up. *)
Definition woken (l : list ThreadContext) : list ThreadContext :=
  match l with
  | [] => []
  | tc :: rest =>
      match status tc with
      | Suspended => activate tc :: rest
      | _ => tc :: rest
      end
  end.

(** The thread contexts once the pin of the first one was set from the
    message counter of a register file. *)
Definition pinned (rf : RegFile.t) (l : list ThreadContext)
  : list ThreadContext :=
  match l with
  | [] => []
  | tc :: rest =>
      setDenySuspend tc (negb (RegFile.get rf (DtuR MSG_CNT) =? 0)) :: rest
  end.
End CompletionVocabulary.

(** * Properties *)

(** ** Arithmetic of the machine integers *)

Lemma wrap64_small (z : Z) : is_u64 z -> wrap64 z = z.
Proof. unfold is_u64, wrap64. intros H. apply Z.mod_small. exact H. Qed.

Lemma wrap64_range (z : Z) : is_u64 (wrap64 z).
Proof. unfold is_u64, wrap64. apply Z.mod_pos_bound. lia. Qed.

Lemma wrap32_small (z : Z) : is_u32 z -> wrap32 z = z.
Proof. unfold is_u32, wrap32. intros H. apply Z.mod_small. exact H. Qed.

Lemma RegFile_get_range (rf : RegFile.t) (r : Reg) : is_u64 (RegFile.get rf r).
Proof. apply wrap64_range. Qed.

Lemma RegFile_get_set_same (rf : RegFile.t) (r : Reg) (v : Z) :
  RegFile.get (RegFile.set rf r v) r = wrap64 v.
Proof.
  unfold RegFile.get, RegFile.set.
  destruct (Reg_eq_dec r r) as [_ | ne]; [ | congruence ].
  apply wrap64_small, wrap64_range.
Qed.

Lemma RegFile_get_set_other (rf : RegFile.t) (r r' : Reg) (v : Z) :
  r <> r' -> RegFile.get (RegFile.set rf r v) r' = RegFile.get rf r'.
Proof.
  intros ne. unfold RegFile.get, RegFile.set.
  destruct (Reg_eq_dec r r'); [ contradiction | reflexivity ].
Qed.

(** [((reg_t)1 << n) - 1] is the mask of the [n] low bits, for every
    width below that of the register. *)
Lemma low_mask_ones (n : Z) :
  0 <= n < 64 -> wrap64 (wrap64 (Z.shiftl 1 n) - 1) = Z.ones n.
Proof.
  intros Hn. rewrite Z.shiftl_1_l, Z.ones_equiv.
  assert (H : 0 < 2 ^ n < 2 ^ 64).
  { split; [ apply Z.pow_pos_nonneg; lia | apply Z.pow_lt_mono_r; lia ]. }
  rewrite (wrap64_small (2 ^ n)) by (unfold is_u64; lia).
  apply wrap64_small. unfold is_u64. lia.
Qed.

(** The mask of [m] bits, moved up by [n], fits the register when the two
    fields do. *)
Lemma field_mask_fits (n m : Z) :
  0 <= n -> 0 <= m -> m + n <= 64 ->
  wrap64 (Z.shiftl (Z.ones m) n) = Z.shiftl (Z.ones m) n.
Proof.
  intros Hn Hm Hs. apply wrap64_small. unfold is_u64.
  rewrite Z.shiftl_mul_pow2, Z.ones_equiv by lia.
  assert (Hle : 2 ^ (m + n) <= 2 ^ 64) by (apply Z.pow_le_mono_r; lia).
  rewrite Z.pow_add_r in Hle by lia.
  assert (0 < 2 ^ n) by (apply Z.pow_pos_nonneg; lia).
  assert (0 < 2 ^ m) by (apply Z.pow_pos_nonneg; lia).
  nia.
Qed.

Lemma low_field (reg n : Z) : 0 <= n -> Z.land reg (Z.ones n) = reg mod 2 ^ n.
Proof. intros Hn. apply Z.land_ones. exact Hn. Qed.

Lemma high_field (reg n m : Z) :
  0 <= n -> 0 <= m ->
  Z.shiftr (Z.land reg (Z.shiftl (Z.ones m) n)) n = (reg / 2 ^ n) mod 2 ^ m.
Proof.
  intros Hn Hm.
  rewrite Z.shiftr_land, Z.shiftr_shiftl_l, Z.sub_diag, Z.shiftl_0_r by lia.
  rewrite Z.land_ones, Z.shiftr_div_pow2 by lia.
  reflexivity.
Qed.

(** The register word [(e << n) | o] splits back into [o] and [e]. *)
Lemma packed_low (o e n : Z) :
  0 <= n -> 0 <= o < 2 ^ n ->
  Z.lor (Z.shiftl e n) o mod 2 ^ n = o.
Proof.
  intros Hn Ho.
  rewrite <- Z.land_ones, Z.land_lor_distr_l by lia.
  rewrite !Z.land_ones, Z.shiftl_mul_pow2 by lia.
  rewrite Z.mod_mul by lia.
  rewrite Z.mod_small by lia. reflexivity.
Qed.

Lemma packed_high (o e n : Z) :
  0 <= n -> 0 <= o < 2 ^ n ->
  Z.lor (Z.shiftl e n) o / 2 ^ n = e.
Proof.
  intros Hn Ho.
  rewrite <- Z.shiftr_div_pow2, Z.shiftr_lor, Z.shiftr_shiftl_l by lia.
  rewrite Z.sub_diag, Z.shiftl_0_r, (Z.shiftr_div_pow2 o) by lia.
  rewrite Z.div_small by lia. apply Z.lor_0_r.
Qed.

Lemma packed_fits (o e n m : Z) :
  0 <= n -> 0 <= m -> m + n <= 64 -> 0 <= o < 2 ^ n -> 0 <= e < 2 ^ m ->
  is_u64 (Z.lor (Z.shiftl e n) o).
Proof.
  intros Hn Hm Hs Ho He. unfold is_u64.
  assert (Hlo := packed_low o e n Hn Ho).
  assert (Hhi := packed_high o e n Hn Ho).
  set (w := Z.lor (Z.shiftl e n) o) in *.
  assert (Hp : 0 < 2 ^ n) by (apply Z.pow_pos_nonneg; lia).
  assert (Hw : w = 2 ^ n * e + o).
  { rewrite (Z.div_mod w (2 ^ n)) by lia. rewrite Hlo, Hhi. reflexivity. }
  assert (Hle : 2 ^ (m + n) <= 2 ^ 64) by (apply Z.pow_le_mono_r; lia).
  rewrite Z.pow_add_r in Hle by lia.
  nia.
Qed.

(** ** The engine *)

Section EngineFacts.
Context {MC : MemCmdInfo} {DD : DtuDecls} {NA : NocAddrCodec} {CK : Clock}
        {P : DtuParams} {U : Type}
        {PT : Ports} {RH : RegFileRequests} {SU : SubUnits (U := U)}.

Implicit Types (s : Dtu (U := U)) (pkt : Packet).

Ltac run_getCommand :=
  unfold getCommand, bind, assert, defined, this, ret, halt;
  destruct (wrap32 (numCmdEpidBits + numCmdOpcodeBits) <=? 64);
  [ destruct ((0 <=? numCmdEpidBits) && (numCmdEpidBits <? 64)) | ].

Lemma getCommand_decoded s :
  fieldsFit ->
  getCommand s
  = Done (narrowed (decoded (RegFile.get (regFile s) (CmdR COMMAND))), s).
Proof.
  intros (Ho & He & Hs).
  assert (Hob := numCmdOpcodeBits_defined).
  unfold getCommand, bind, assert, defined, this, ret.
  rewrite wrap32_small by (unfold is_u32; lia).
  destruct (Z.leb_spec (numCmdEpidBits + numCmdOpcodeBits) 64) as [_ | Hgt];
    [ | lia ].
  destruct (Z.leb_spec 0 numCmdEpidBits) as [_ | Hneg]; [ | lia ].
  destruct (Z.ltb_spec numCmdEpidBits 64) as [_ | Hge]; [ | lia ].
  cbn [andb].
  rewrite !low_mask_ones by lia.
  rewrite field_mask_fits by lia.
  rewrite low_field, high_field by lia.
  reflexivity.
Qed.

(** [getCommand] reads the state and leaves it as it is. *)
Lemma getCommand_pure s cmd s' :
  getCommand s = Done (cmd, s') -> s' = s.
Proof.
  run_getCommand; intros H; inversion H; reflexivity.
Qed.

(** Its result depends on the register file alone. *)
Lemma getCommand_regFile s s' cmd :
  regFile s' = regFile s ->
  getCommand s = Done (cmd, s) -> getCommand s' = Done (cmd, s').
Proof.
  intros Hrf. run_getCommand; intros H; inversion H.
  rewrite Hrf. reflexivity.
Qed.

Lemma wrap32_is_u32 (z : Z) : is_u32 (wrap32 z).
Proof. unfold is_u32, wrap32. apply Z.mod_pos_bound. lia. Qed.

(** A command that [getCommand] returns fits its members. *)
Lemma getCommand_wf s cmd s' :
  getCommand s = Done (cmd, s') -> Command_wf cmd.
Proof.
  run_getCommand; intros H; inversion H.
  split; apply wrap32_is_u32.
Qed.

Lemma wrap32_nonneg_le (z : Z) : 0 <= z -> 0 <= wrap32 z <= z.
Proof.
  intros H. unfold wrap32. split.
  - apply Z.mod_pos_bound. lia.
  - apply Z.mod_le; lia.
Qed.

(** C3, as amended. Whatever the command register holds, [getCommand]
    returns its [numCmdOpcodeBits] low bits as the opcode and the next
    [numCmdEpidBits] bits, shifted down, as the endpoint id, each
    narrowed to the 32 bits of its member of the command; for fields of
    at most 32 bits nothing is lost, and no command it returns has a
    member of more than 32 bits.  Hence the word
    [(e << numCmdOpcodeBits) | o], for an opcode [o] and an endpoint id
    [e] that fit their fields and 32 bits, decodes to exactly [o] and
    [e], and does so once it is stored in the register. *)
Theorem getCommand_fields s :
  fieldsFit ->
  (let reg := RegFile.get (regFile s) (CmdR COMMAND) in
   getCommand s =
     Done (mkCommand (wrap32 (reg mod 2 ^ numCmdOpcodeBits))
                     (wrap32 ((reg / 2 ^ numCmdOpcodeBits)
                              mod 2 ^ numCmdEpidBits)), s) /\
   (numCmdOpcodeBits <= 32 -> numCmdEpidBits <= 32 ->
    getCommand s =
      Done (mkCommand (reg mod 2 ^ numCmdOpcodeBits)
                      ((reg / 2 ^ numCmdOpcodeBits) mod 2 ^ numCmdEpidBits), s)) /\
   (forall cmd s', getCommand s = Done (cmd, s') -> Command_wf cmd))
  /\
  (forall o e,
     0 <= o < 2 ^ numCmdOpcodeBits -> o < 2 ^ 32 ->
     0 <= e < 2 ^ numCmdEpidBits -> e < 2 ^ 32 ->
     (RegFile.get (regFile s) (CmdR COMMAND)
        = Z.lor (Z.shiftl e numCmdOpcodeBits) o ->
      getCommand s = Done (mkCommand o e, s)) /\
     (let written :=
        with_regFile s (RegFile.set (regFile s) (CmdR COMMAND)
                                    (Z.lor (Z.shiftl e numCmdOpcodeBits) o)) in
      getCommand written = Done (mkCommand o e, written))).
Proof.
  intros Hfit. split.
  - cbv zeta. split; [ | split ];
      [ | | intros cmd s'; apply getCommand_wf ].
    + apply getCommand_decoded. exact Hfit.
    + intros Ho32 He32. rewrite getCommand_decoded by exact Hfit.
      destruct Hfit as (Hob & Heb & Hsum).
      unfold narrowed, decoded. cbn [opcode epId].
      assert (H1 : 2 ^ numCmdOpcodeBits <= 2 ^ 32)
        by (apply Z.pow_le_mono_r; lia).
      assert (H2 : 2 ^ numCmdEpidBits <= 2 ^ 32)
        by (apply Z.pow_le_mono_r; lia).
      set (reg := RegFile.get (regFile s) (CmdR COMMAND)).
      assert (B1 := Z.mod_pos_bound reg (2 ^ numCmdOpcodeBits)
                      ltac:(apply Z.pow_pos_nonneg; lia)).
      assert (B2 := Z.mod_pos_bound (reg / 2 ^ numCmdOpcodeBits)
                      (2 ^ numCmdEpidBits) ltac:(apply Z.pow_pos_nonneg; lia)).
      rewrite !wrap32_small by (unfold is_u32; lia). reflexivity.
  - intros o e Ho Ho32 He He32.
    assert (Hword : forall s0,
              RegFile.get (regFile s0) (CmdR COMMAND)
                = Z.lor (Z.shiftl e numCmdOpcodeBits) o ->
              getCommand s0 = Done (mkCommand o e, s0)).
    { intros s0 Hreg. rewrite getCommand_decoded by exact Hfit.
      destruct Hfit as (Hob & Heb & Hsum).
      unfold narrowed, decoded. cbn [opcode epId]. rewrite Hreg.
      rewrite packed_low, packed_high by lia.
      rewrite (Z.mod_small e) by lia.
      rewrite !wrap32_small by (unfold is_u32; lia). reflexivity. }
    split; [ apply Hword | ].
    cbv zeta. apply Hword. simpl regFile.
    rewrite RegFile_get_set_same. apply wrap64_small.
    destruct Hfit as (Hob & Heb & Hsum).
    apply (packed_fits o e numCmdOpcodeBits numCmdEpidBits); lia.
Qed.

Lemma wrap64_once (z : Z) : 2 ^ 64 <= z < 2 * 2 ^ 64 -> wrap64 z = z - 2 ^ 64.
Proof.
  intros H. unfold wrap64. symmetry.
  apply (Z.mod_unique_pos z (2 ^ 64) 1); lia.
Qed.

(** The bounds test of [handleCacheMemRequest] fires when the sum wraps
    around and when it passes the size of the region. *)
Lemma bounds_test_fires (a sz remoteSize : Z) :
  is_u64 a -> is_u32 sz ->
  2 ^ 64 <= a + sz \/ remoteSize < a + sz ->
  (wrap64 (a + sz) <=? a) || (wrap64 (a + sz) >? remoteSize) = true.
Proof.
  unfold is_u64, is_u32. intros Ha Hsz H.
  assert (H32 : 2 ^ 32 < 2 ^ 64) by (apply Z.pow_lt_mono_r; lia).
  apply orb_true_iff. rewrite Z.gtb_ltb, Z.leb_le, Z.ltb_lt.
  destruct (Z_lt_le_dec (a + sz) (2 ^ 64)) as [Hlt | Hge].
  - right. rewrite wrap64_small by (unfold is_u64; lia).
    destruct H as [H | H]; lia.
  - left. rewrite wrap64_once by lia. lia.
Qed.

(** C1. A cache-memory request that is neither a [CleanEvict] nor an
    [InvalidateReq] is denied, that is [handleCacheMemRequest] returns
    [false] and leaves the engine (its trace of outgoing requests
    included) and the packet as they were, whenever the packet writes and
    the memory endpoint lacks [WRITE], or reads and the endpoint lacks
    [READ], or [addr + size] wraps around, or [addr + size] exceeds the
    endpoint's remote size. *)
Theorem handleCacheMemRequest_denies s pkt functional :
  Packet_wf pkt ->
  cmd pkt <> CleanEvict -> cmd pkt <> InvalidateReq ->
  (isWrite pkt = true /\ Z.land (memEpFlags s) WRITE = 0) \/
  (isRead pkt = true /\ Z.land (memEpFlags s) READ = 0) \/
  2 ^ 64 <= addr pkt + size pkt \/
  RegFile.get (regFile s) (EpR memEp REQ_REM_SIZE) < addr pkt + size pkt ->
  handleCacheMemRequest pkt functional s = Done ((false, pkt), s).
Proof.
  intros [Ha Hsz] Hce Hinv H.
  unfold handleCacheMemRequest.
  destruct (MemCmd_eq_dec (cmd pkt) CleanEvict) as [e | _]; [ contradiction | ].
  destruct (MemCmd_eq_dec (cmd pkt) InvalidateReq) as [e | _]; [ contradiction | ].
  unfold bind, this, getAddr, getSize.
  destruct ((isWrite pkt && (Z.land (memEpFlags s) WRITE =? 0))
            || (isRead pkt && (Z.land (memEpFlags s) READ =? 0))) eqn:Hperm;
    [ reflexivity | ].
  apply orb_false_iff in Hperm. destruct Hperm as [Hw Hr].
  destruct H as [[Hiw Hfw] | [[Hir Hfr] | Hbounds]].
  - rewrite Hiw, Hfw in Hw. discriminate Hw.
  - rewrite Hir, Hfr in Hr. discriminate Hr.
  - rewrite bounds_test_fires by assumption. reflexivity.
Qed.

(** C9. A cache-memory request of size zero that is neither a
    [CleanEvict] nor an [InvalidateReq] is denied whatever the flags and
    the remote size of the memory endpoint: [addr + 0 <= addr] holds. *)
Theorem empty_request_denied s pkt functional :
  is_u64 (addr pkt) -> size pkt = 0 ->
  cmd pkt <> CleanEvict -> cmd pkt <> InvalidateReq ->
  handleCacheMemRequest pkt functional s = Done ((false, pkt), s).
Proof.
  intros Ha Hsz Hce Hinv.
  unfold handleCacheMemRequest.
  destruct (MemCmd_eq_dec (cmd pkt) CleanEvict) as [e | _]; [ contradiction | ].
  destruct (MemCmd_eq_dec (cmd pkt) InvalidateReq) as [e | _]; [ contradiction | ].
  unfold bind, this, getAddr, getSize.
  destruct ((isWrite pkt && (Z.land (memEpFlags s) WRITE =? 0))
            || (isRead pkt && (Z.land (memEpFlags s) READ =? 0)));
    [ reflexivity | ].
  rewrite Hsz, Z.add_0_r, wrap64_small by exact Ha.
  rewrite Z.leb_refl. reflexivity.
Qed.

(** ** Retiring and dispatching commands *)

(** Whether [getCommand] passes its assertion is a matter of the
    parameters, not of the state. *)
Lemma getCommand_total s cmd s1 :
  getCommand s = Done (cmd, s) -> exists cmd1, getCommand s1 = Done (cmd1, s1).
Proof.
  run_getCommand; intros H;
    [ eexists; reflexivity | discriminate H | discriminate H ].
Qed.

Lemma finishCommand_unfold s cmd :
  getCommand s = Done (cmd, s) ->
  finishCommand s =
    if cmdInProgress s
    then Done (tt, with_cmdInProgress
                     (with_regFile s (RegFile.set (regFile s) (CmdR COMMAND) 0))
                     false)
    else Halt AssertionFailed.
Proof.
  intros Hget. unfold finishCommand, bind. rewrite Hget.
  unfold this, assert, update, ret, halt.
  destruct (cmdInProgress s); reflexivity.
Qed.

(** Wherever [finishCommand] returns, a command was in progress, and
    the register and the flag are cleared. *)
Lemma finishCommand_done s s' :
  finishCommand s = Done (tt, s') ->
  cmdInProgress s = true /\
  RegFile.get (regFile s') (CmdR COMMAND) = 0 /\ cmdInProgress s' = false.
Proof.
  unfold finishCommand, bind at 1.
  destruct (getCommand s) as [[cmd s0] | f] eqn:Hget; [ | discriminate ].
  assert (s0 = s) by (eapply getCommand_pure; exact Hget). subst s0.
  unfold bind, this, assert, update, ret, halt.
  destruct (cmdInProgress s); [ | discriminate ].
  intros H. inversion H. subst s'. simpl.
  rewrite RegFile_get_set_same. repeat split.
Qed.

Lemma keepsRegFile_getCommand : keepsRegFile (U := U) getCommand.
Proof.
  intros s cmd s' H. apply getCommand_pure in H. subst. reflexivity.
Qed.

Lemma keepsRegFile_wakeupCore : keepsRegFile (U := U) wakeupCore.
Proof.
  intros s [] s'. unfold wakeupCore, bind, this, update, ret.
  destruct (threadContexts s) as [ | tc rest].
  - intros H. inversion H. reflexivity.
  - destruct (status tc); intros H; inversion H; reflexivity.
Qed.

Lemma keepsRegFile_updateSuspendablePin : keepsRegFile (U := U) updateSuspendablePin.
Proof.
  intros s [] s'. unfold updateSuspendablePin, bind, this, update, ret.
  destruct (threadContexts s) as [ | tc rest];
    intros H; inversion H; reflexivity.
Qed.

(** [wakeupCore] always returns and touches the thread contexts only. *)
Lemma wakeupCore_runs s :
  exists l, wakeupCore s = Done (tt, with_threadContexts s l).
Proof.
  unfold wakeupCore, bind, this, update, ret.
  destruct s as [rf c tcs u t]. simpl.
  destruct tcs as [ | tc rest].
  - exists []. reflexivity.
  - destruct (status tc); eexists; reflexivity.
Qed.

(** A command other than [IDLE] is read from a nonzero register. *)
Lemma getCommand_nonzero s cmd :
  getCommand s = Done (cmd, s) ->
  opcode cmd <> CommandOpcode.value CommandOpcode.IDLE ->
  RegFile.get (regFile s) (CmdR COMMAND) <> 0.
Proof.
  run_getCommand; intros H; inversion H as [Hcmd]. simpl.
  intros Hop Hzero. apply Hop. rewrite Hzero, Z.land_0_l. reflexivity.
Qed.

(** Past its guards, [executeCommand] marks the command in progress and
    hands it to the unit of its opcode. *)
Lemma executeCommand_dispatch s cmd :
  getCommand s = Done (cmd, s) ->
  opcode cmd <> CommandOpcode.value CommandOpcode.IDLE ->
  cmdInProgress s = false -> epId cmd < numEndpoints ->
  executeCommand s =
    match CommandOpcode.of_value (opcode cmd) with
    | Some CommandOpcode.SEND
    | Some CommandOpcode.REPLY => msgUnit_startTransmission cmd
    | Some CommandOpcode.READ => memUnit_startRead cmd
    | Some CommandOpcode.WRITE => memUnit_startWrite cmd
    | Some CommandOpcode.INC_READ_PTR =>
        bind (msgUnit_incrementReadPtr (epId cmd)) (fun _ => finishCommand)
    | Some CommandOpcode.WAKEUP_CORE => bind wakeupCore (fun _ => finishCommand)
    | _ => panic
    end (with_cmdInProgress s true).
Proof.
  intros Hget Hop Hflag Hep.
  unfold executeCommand, bind at 1. rewrite Hget.
  destruct (Z.eqb_spec (opcode cmd) (CommandOpcode.value CommandOpcode.IDLE));
    [ contradiction | ].
  unfold bind at 1, this. unfold bind at 1. rewrite Hflag. simpl.
  unfold bind at 1, assert.
  destruct (Z.ltb_spec (epId cmd) numEndpoints) as [_ | Hge]; [ | lia ].
  reflexivity.
Qed.

(** C8. [executeCommand] on an [IDLE] command returns at once and leaves
    the engine as it was, no command marked in progress.  On any other
    command it asserts that no command is in progress and that the
    decoded endpoint id is below [numEndpoints]; past these assertions
    an opcode that is none of the known ones makes it [panic]. *)
Theorem executeCommand_guards s cmd :
  getCommand s = Done (cmd, s) ->
  (opcode cmd = CommandOpcode.value CommandOpcode.IDLE ->
     executeCommand s = Done (tt, s)) /\
  (opcode cmd <> CommandOpcode.value CommandOpcode.IDLE ->
     (cmdInProgress s = true -> executeCommand s = Halt AssertionFailed) /\
     (numEndpoints <= epId cmd -> executeCommand s = Halt AssertionFailed) /\
     (cmdInProgress s = false -> epId cmd < numEndpoints ->
        CommandOpcode.of_value (opcode cmd) = None ->
        executeCommand s = Halt Panicked)).
Proof.
  intros Hget. split.
  - intros Hidle. unfold executeCommand, bind. rewrite Hget, Hidle.
    reflexivity.
  - intros Hop. repeat split.
    + intros Hflag. unfold executeCommand, bind at 1. rewrite Hget.
      destruct (Z.eqb_spec (opcode cmd) (CommandOpcode.value CommandOpcode.IDLE));
        [ contradiction | ].
      unfold bind, this. rewrite Hflag. reflexivity.
    + intros Hep. unfold executeCommand, bind at 1. rewrite Hget.
      destruct (Z.eqb_spec (opcode cmd) (CommandOpcode.value CommandOpcode.IDLE));
        [ contradiction | ].
      unfold bind, this, assert, ret, halt.
      destruct (cmdInProgress s); [ reflexivity | simpl ].
      destruct (Z.ltb_spec (epId cmd) numEndpoints); [ lia | reflexivity ].
    + intros Hflag Hep Hnone.
      rewrite (executeCommand_dispatch s cmd) by assumption.
      rewrite Hnone. reflexivity.
Qed.

(** ** Register-file accesses *)

(** [updateSuspendablePin] always returns; it rewrites the pin of the
    first thread context, if there is one, and nothing else. *)
Lemma updateSuspendablePin_runs s :
  exists l,
    updateSuspendablePin s = Done (tt, with_threadContexts s l) /\
    (threadContexts s = [] -> l = []) /\
    (forall tc rest, threadContexts s = tc :: rest ->
       l = setDenySuspend tc (RegFile.get (regFile s) (DtuR MSG_CNT) >? 0) :: rest).
Proof.
  unfold updateSuspendablePin, bind, this, update, ret.
  destruct s as [rf c tcs u t]. simpl.
  destruct tcs as [ | tc rest]; eexists; (split; [ reflexivity | ]).
  - split; [ reflexivity | discriminate ].
  - split; [ discriminate | ]. intros tc' rest' H. inversion H. reflexivity.
Qed.

(** [forwardRequestToRegFile], read from the answer of the register
    file on. *)
Lemma forwardRequestToRegFile_unfold s pkt isCpuRequest rf pkt1 commandWritten :
  regAccess s pkt isCpuRequest = (rf, pkt1, commandWritten) ->
  forwardRequestToRegFile pkt isCpuRequest s =
    bind updateSuspendablePin
      (fun _ =>
         let pkt := setAddr pkt1 (addr pkt) in
         if negb atomicMode then
           let when :=
             clockEdge
               (wrap64 (ticksToCycles (wrap32 (headerDelay pkt + payloadDelay pkt))
                        + registerAccessLatency)) in
           let pkt := clearDelays pkt in
           bind (if isCpuRequest then schedCpuResponse pkt when
                 else bind (schedNocRequestFinished (clockEdge 1))
                           (fun _ => schedNocResponse pkt when))
             (fun _ =>
                bind (if commandWritten
                      then schedule_executeCommandEvent when else ret tt)
                  (fun _ => ret pkt))
         else if commandWritten then bind executeCommand (fun _ => ret pkt)
         else ret pkt)
      (with_regFile s rf).
Proof.
  unfold regAccess. intros H.
  unfold forwardRequestToRegFile, getAddr, bind at 1, this. rewrite H.
  reflexivity.
Qed.

Lemma gtb_0_nonzero (z : Z) : is_u64 z -> (z >? 0) = negb (z =? 0).
Proof.
  unfold is_u64. intros H. rewrite Z.gtb_ltb.
  destruct (Z.ltb_spec 0 z), (Z.eqb_spec z 0); simpl; (reflexivity || lia).
Qed.

(** The events a timed register-file access schedules. *)
Lemma forwardRequestToRegFile_timed s pkt isCpuRequest rf pkt1 commandWritten :
  atomicMode = false ->
  regAccess s pkt isCpuRequest = (rf, pkt1, commandWritten) ->
  let when :=
    clockEdge
      (wrap64 (ticksToCycles (wrap32 (headerDelay pkt1 + payloadDelay pkt1))
               + registerAccessLatency)) in
  let response := clearDelays (setAddr pkt1 (addr pkt)) in
  exists l,
    updateSuspendablePin (with_regFile s rf)
      = Done (tt, with_threadContexts (with_regFile s rf) l) /\
    forwardRequestToRegFile pkt isCpuRequest s =
      Done (response,
            with_trace (with_threadContexts (with_regFile s rf) l)
              (trace s
               ++ (if isCpuRequest then [SchedCpuResponse response when]
                   else [SchedNocRequestFinished (clockEdge 1);
                         SchedNocResponse response when])
               ++ (if commandWritten
                   then [ScheduleExecuteCommandEvent when] else []))).
Proof.
  intros Hmode Hacc. cbv zeta.
  rewrite (forwardRequestToRegFile_unfold s pkt isCpuRequest _ _ _ Hacc).
  destruct (updateSuspendablePin_runs (with_regFile s rf)) as (l & Hrun & _).
  exists l. split; [ exact Hrun | ].
  unfold bind at 1. rewrite Hrun, Hmode. simpl negb. cbv iota zeta.
  destruct isCpuRequest, commandWritten;
    unfold bind, schedCpuResponse, schedNocResponse, schedNocRequestFinished,
      schedule_executeCommandEvent, emit, update, ret, with_trace;
    simpl; rewrite <- ?app_assoc; try rewrite app_nil_r; reflexivity.
Qed.

(** An atomic register-file access executes the command it wrote, and
    does nothing past the pin otherwise. *)
Lemma forwardRequestToRegFile_atomic s pkt isCpuRequest rf pkt1 commandWritten :
  atomicMode = true ->
  regAccess s pkt isCpuRequest = (rf, pkt1, commandWritten) ->
  exists l,
    updateSuspendablePin (with_regFile s rf)
      = Done (tt, with_threadContexts (with_regFile s rf) l) /\
    forwardRequestToRegFile pkt isCpuRequest s =
      if commandWritten
      then bind executeCommand (fun _ => ret (setAddr pkt1 (addr pkt)))
                (with_threadContexts (with_regFile s rf) l)
      else Done (setAddr pkt1 (addr pkt),
                 with_threadContexts (with_regFile s rf) l).
Proof.
  intros Hmode Hacc.
  rewrite (forwardRequestToRegFile_unfold s pkt isCpuRequest _ _ _ Hacc).
  destruct (updateSuspendablePin_runs (with_regFile s rf)) as (l & Hrun & _).
  exists l. split; [ exact Hrun | ].
  unfold bind at 1. rewrite Hrun, Hmode. simpl negb. cbv iota zeta.
  destruct commandWritten; reflexivity.
Qed.

(** *** What keeps a property of the engine *)

Lemma preserves_ret {A : Type} (I : Dtu (U := U) -> Prop) (a : A) :
  preserves I (ret a).
Proof. intros s a' s' Hs H. inversion H. subst. exact Hs. Qed.

Lemma preserves_halt {A : Type} (I : Dtu (U := U) -> Prop) (f : Fatal) :
  preserves I (halt (A := A) f).
Proof. intros s a s' _ H. discriminate H. Qed.

Lemma preserves_bind {A B : Type} (I : Dtu (U := U) -> Prop)
      (m : M A) (k : A -> M B) :
  preserves I m -> (forall a, preserves I (k a)) -> preserves I (bind m k).
Proof.
  intros Hm Hk s b s' Hs. unfold bind.
  destruct (m s) as [[a s1] | f] eqn:E; [ | discriminate ].
  intros H. exact (Hk a s1 b s' (Hm s a s1 Hs E) H).
Qed.

Lemma preserves_assert (I : Dtu (U := U) -> Prop) (b : bool) :
  preserves I (assert b).
Proof. destruct b; [ apply preserves_ret | apply preserves_halt ]. Qed.

Lemma preserves_this (I : Dtu (U := U) -> Prop) : preserves I this.
Proof. intros s a s' Hs H. inversion H. subst. exact Hs. Qed.

Lemma preserves_emit (I : Dtu (U := U) -> Prop) (e : Event) :
  framed I -> preserves I (emit e).
Proof.
  intros [Ht _] s a s' Hs H. inversion H. subst. apply Ht. exact Hs.
Qed.

Lemma preserves_threadContexts (I : Dtu (U := U) -> Prop) l :
  framed I -> preserves I (update (fun s => with_threadContexts s l)).
Proof.
  intros [_ Hl] s a s' Hs H. inversion H. subst. apply Hl. exact Hs.
Qed.

Lemma preserves_getCommand (I : Dtu (U := U) -> Prop) : preserves I getCommand.
Proof.
  intros s a s' Hs H. apply getCommand_pure in H. subst. exact Hs.
Qed.

Ltac keeps :=
  repeat first
    [ assumption
    | match goal with
      | H : forall _, preserves _ _ |- _ => simple apply H
      | H : forall _ _, preserves _ _ |- _ => simple apply H
      | H : forall _ _ _ _, preserves _ _ |- _ => simple apply H
      end
    | simple apply preserves_ret | simple apply preserves_halt
    | simple apply preserves_assert
    | simple apply preserves_this | simple apply preserves_getCommand
    | simple apply preserves_emit; assumption
    | simple apply preserves_threadContexts; assumption
    | simple apply preserves_bind; [ | intros ? ]
    | match goal with
      | |- preserves _ (match ?x with _ => _ end) => destruct x
      end ].

(** The methods of the engine that neither retire a command nor hand
    a request to the register file keep every property of the engine
    that the units keep and that does not depend on what was sent or on
    the thread contexts: they write no register themselves. *)
Lemma engine_preserves (I : Dtu (U := U) -> Prop) :
  framed I -> unitsPreserve I ->
  preserves I getCommand /\
  preserves I wakeupCore /\
  preserves I updateSuspendablePin /\
  (forall pkt, preserves I (freeRequest pkt)) /\
  (forall pkt, preserves I (completeMemRequest pkt)) /\
  (forall pkt epId type delay, preserves I (sendMemRequest pkt epId type delay)) /\
  (forall pkt, preserves I (completeNocRequest pkt)) /\
  (forall type pkt delay functional,
     preserves I (sendNocRequest type pkt delay functional)) /\
  (forall pkt, preserves I (handleNocRequest pkt)) /\
  (forall pkt functional, preserves I (handleCacheMemRequest pkt functional)).
Proof.
  intros Hframe (U1 & U2 & U3 & U4 & U5 & U6 & U7 & U8 & U9 & U10 & U11).
  assert (Hmem : forall pkt, preserves I (completeMemRequest pkt)).
  { intros pkt. unfold completeMemRequest, popSenderState, freeRequest. keeps. }
  assert (Hnoc : forall pkt, preserves I (completeNocRequest pkt)).
  { intros pkt. unfold completeNocRequest, popSenderState, sendCacheMemResponse,
      panic. keeps. }
  assert (Hsend : forall type pkt delay functional,
            preserves I (sendNocRequest type pkt delay functional)).
  { intros type pkt delay functional.
    unfold sendNocRequest, sendFunctionalNocRequest, sendAtomicNocRequest,
      schedNocRequest. keeps. }
  split; [ apply preserves_getCommand | ].
  split; [ unfold wakeupCore; keeps | ].
  split; [ unfold updateSuspendablePin; keeps | ].
  split; [ intros pkt; unfold freeRequest; keeps | ].
  split; [ exact Hmem | ].
  split; [ intros pkt epId type delay;
           unfold sendMemRequest, sendAtomicMemRequest, schedMemRequest; keeps | ].
  split; [ exact Hnoc | ].
  split; [ exact Hsend | ].
  split; [ intros pkt; unfold handleNocRequest; keeps | ].
  intros pkt functional. unfold handleCacheMemRequest. keeps.
Qed.

Lemma framed_retiredWhenZero : framed (retiredWhenZero (U := U)).
Proof. split; intros s x H; exact H. Qed.

Lemma finishCommand_retires :
  preserves (retiredWhenZero (U := U)) finishCommand.
Proof.
  intros s [] s' _ H. apply finishCommand_done in H.
  intros _. apply H.
Qed.

Lemma executeCommand_retiredWhenZero :
  unitsPreserve (retiredWhenZero (U := U)) ->
  preserves (retiredWhenZero (U := U)) executeCommand.
Proof.
  intros Hunits.
  destruct (engine_preserves _ framed_retiredWhenZero Hunits)
    as (_ & Hwake & _).
  destruct Hunits as (U1 & U2 & U3 & U4 & U5 & U6 & U7 & U8 & U9 & U10 & U11).
  intros s [] s' Hs. unfold executeCommand, bind at 1.
  destruct (getCommand s) as [[cmd s0] | f] eqn:Hget; [ | discriminate ].
  assert (s0 = s) by (eapply getCommand_pure; exact Hget). subst s0.
  destruct (Z.eqb_spec (opcode cmd) (CommandOpcode.value CommandOpcode.IDLE))
    as [Hidle | Hop].
  - intros H. inversion H. subst. exact Hs.
  - assert (Hreg := getCommand_nonzero s cmd Hget Hop).
    unfold bind at 1, this. unfold bind at 1.
    destruct (cmdInProgress s); [ discriminate | ]. simpl.
    unfold bind at 1, assert.
    destruct (epId cmd <? numEndpoints); [ | discriminate ].
    unfold bind at 1, update, ret.
    assert (Hbusy : retiredWhenZero (with_cmdInProgress s true))
      by (intros Hzero; contradiction).
    revert Hbusy. generalize (with_cmdInProgress s true). intros s1 Hs1.
    assert (Hrest : preserves (retiredWhenZero (U := U))
              match CommandOpcode.of_value (opcode cmd) with
              | Some CommandOpcode.SEND
              | Some CommandOpcode.REPLY => msgUnit_startTransmission cmd
              | Some CommandOpcode.READ => memUnit_startRead cmd
              | Some CommandOpcode.WRITE => memUnit_startWrite cmd
              | Some CommandOpcode.INC_READ_PTR =>
                  bind (msgUnit_incrementReadPtr (epId cmd)) (fun _ => finishCommand)
              | Some CommandOpcode.WAKEUP_CORE =>
                  bind wakeupCore (fun _ => finishCommand)
              | _ => panic
              end).
    { destruct (CommandOpcode.of_value (opcode cmd)) as [[ | | | | | | ] | ];
        try apply preserves_halt; try apply U1; try apply U5; try apply U6;
        apply preserves_bind;
        try (intros _; apply finishCommand_retires);
        [ apply U2 | exact Hwake ]. }
    intros H. exact (Hrest s1 tt s' Hs1 H).
Qed.

Lemma forwardRequestToRegFile_retiredWhenZero
      s pkt isCpuRequest rf pkt1 commandWritten :
  unitsPreserve (retiredWhenZero (U := U)) ->
  regAccess s pkt isCpuRequest = (rf, pkt1, commandWritten) ->
  (RegFile.get rf (CmdR COMMAND) = 0 -> cmdInProgress s = false) ->
  forall pkt' s',
    forwardRequestToRegFile pkt isCpuRequest s = Done (pkt', s') ->
    retiredWhenZero s'.
Proof.
  intros Hunits Hacc Hrf pkt' s'.
  rewrite (forwardRequestToRegFile_unfold s pkt isCpuRequest _ _ _ Hacc).
  assert (Hexec := executeCommand_retiredWhenZero Hunits).
  destruct (engine_preserves _ framed_retiredWhenZero Hunits)
    as (_ & _ & Hpin & _).
  assert (Hframe := framed_retiredWhenZero).
  match goal with
  | |- bind ?m ?k _ = _ -> _ =>
      assert (Hall : preserves (retiredWhenZero (U := U)) (bind m k))
  end.
  { apply preserves_bind; [ exact Hpin | intros _ ]. cbv zeta.
    unfold schedCpuResponse, schedNocResponse, schedNocRequestFinished,
      schedule_executeCommandEvent.
    keeps. }
  intros H. exact (Hall (with_regFile s rf) pkt' s' Hrf H).
Qed.

(** C4, as amended. Within the engine the command register is cleared
    by retirement only, and reads zero only when no command is in
    progress, as long as no register-file access leaves zero in it while
    one is.

    [finishCommand] asserts that a command is in progress and then
    clears the register and the flag together.  No other method of the
    engine writes a register but through a unit, the register file or
    [finishCommand]: all but [executeCommand] and
    [forwardRequestToRegFile] keep every property of the engine that
    the units keep; [executeCommand] hands [SEND], [REPLY], [READ] and
    [WRITE] to their unit with the register file as it found it, so
    that it is for the unit to retire them, and for [WAKEUP_CORE] and
    [INC_READ_PTR] goes on to [finishCommand] itself, so that the call
    returns with the register and the flag cleared; until then the
    register of a command other than [IDLE] reads nonzero.
    [forwardRequestToRegFile] takes the register file as
    [RegFile::handleRequest] leaves it, command register included, and
    does nothing else to it but execute, in atomic mode, a command that
    was written.

    Hence the engine as constructed has the command register read zero
    only when no command is in progress, and every method keeps it so
    when the units do, [forwardRequestToRegFile] if the register file
    does not leave zero in the command register while a command is in
    progress. *)
Theorem command_register_cleared_by_retirement s cmd :
  getCommand s = Done (cmd, s) ->
  (cmdInProgress s = false -> finishCommand s = Halt AssertionFailed) /\
  (cmdInProgress s = true ->
     finishCommand s =
       Done (tt, with_cmdInProgress
                   (with_regFile s (RegFile.set (regFile s) (CmdR COMMAND) 0))
                   false)) /\
  (forall s0 s', finishCommand s0 = Done (tt, s') ->
     cmdInProgress s0 = true /\
     RegFile.get (regFile s') (CmdR COMMAND) = 0 /\ cmdInProgress s' = false) /\
  (keepsRegFile (U := U) getCommand /\ keepsRegFile (U := U) wakeupCore /\
   keepsRegFile (U := U) updateSuspendablePin) /\
  (forall I : Dtu (U := U) -> Prop,
     framed I -> unitsPreserve I ->
     preserves I getCommand /\
     preserves I wakeupCore /\
     preserves I updateSuspendablePin /\
     (forall pkt, preserves I (freeRequest pkt)) /\
     (forall pkt, preserves I (completeMemRequest pkt)) /\
     (forall pkt epId type delay,
        preserves I (sendMemRequest pkt epId type delay)) /\
     (forall pkt, preserves I (completeNocRequest pkt)) /\
     (forall type pkt delay functional,
        preserves I (sendNocRequest type pkt delay functional)) /\
     (forall pkt, preserves I (handleNocRequest pkt)) /\
     (forall pkt functional,
        preserves I (handleCacheMemRequest pkt functional))) /\
  (cmdInProgress s = false -> epId cmd < numEndpoints ->
     (opcode cmd = CommandOpcode.value CommandOpcode.SEND \/
      opcode cmd = CommandOpcode.value CommandOpcode.REPLY ->
        executeCommand s
          = msgUnit_startTransmission cmd (with_cmdInProgress s true)) /\
     (opcode cmd = CommandOpcode.value CommandOpcode.READ ->
        executeCommand s = memUnit_startRead cmd (with_cmdInProgress s true)) /\
     (opcode cmd = CommandOpcode.value CommandOpcode.WRITE ->
        executeCommand s = memUnit_startWrite cmd (with_cmdInProgress s true)) /\
     (opcode cmd = CommandOpcode.value CommandOpcode.WAKEUP_CORE ->
        exists s', executeCommand s = Done (tt, s') /\
          RegFile.get (regFile s') (CmdR COMMAND) = 0 /\
          cmdInProgress s' = false) /\
     (opcode cmd = CommandOpcode.value CommandOpcode.INC_READ_PTR ->
        (forall s1,
           msgUnit_incrementReadPtr (epId cmd) (with_cmdInProgress s true)
             = Done (tt, s1) ->
           executeCommand s = finishCommand s1 /\
           (cmdInProgress s1 = true ->
            exists s', executeCommand s = Done (tt, s') /\
              RegFile.get (regFile s') (CmdR COMMAND) = 0 /\
              cmdInProgress s' = false)) /\
        (forall s', executeCommand s = Done (tt, s') ->
           RegFile.get (regFile s') (CmdR COMMAND) = 0 /\
           cmdInProgress s' = false))) /\
  (opcode cmd <> CommandOpcode.value CommandOpcode.IDLE ->
     RegFile.get (regFile s) (CmdR COMMAND) <> 0) /\
  (forall pkt isCpuRequest,
     let '(rf, pkt1, commandWritten) := regAccess s pkt isCpuRequest in
     exists checked,
       updateSuspendablePin (with_regFile s rf) = Done (tt, checked) /\
       regFile checked = rf /\ cmdInProgress checked = cmdInProgress s /\
       (atomicMode && commandWritten = true ->
          forwardRequestToRegFile pkt isCpuRequest s =
            bind executeCommand (fun _ => ret (setAddr pkt1 (addr pkt))) checked) /\
       (atomicMode && commandWritten = false ->
          exists pkt' s',
            forwardRequestToRegFile pkt isCpuRequest s = Done (pkt', s') /\
            regFile s' = rf /\ cmdInProgress s' = cmdInProgress s)) /\
  (forall fresh contexts u s0,
     Dtu_new fresh contexts u = Done s0 -> retiredWhenZero s0) /\
  framed (retiredWhenZero (U := U)) /\
  (unitsPreserve (retiredWhenZero (U := U)) ->
     preserves (retiredWhenZero (U := U)) finishCommand /\
     preserves (retiredWhenZero (U := U)) executeCommand /\
     (forall s0 pkt isCpuRequest,
        let '(rf, pkt1, commandWritten) := regAccess s0 pkt isCpuRequest in
        (RegFile.get rf (CmdR COMMAND) = 0 -> cmdInProgress s0 = false) ->
        forall pkt' s',
          forwardRequestToRegFile pkt isCpuRequest s0 = Done (pkt', s') ->
          retiredWhenZero s')).
Proof.
  intros Hget.
  split; [ intros Hflag; rewrite (finishCommand_unfold s cmd Hget), Hflag;
           reflexivity | ].
  split; [ intros Hflag; rewrite (finishCommand_unfold s cmd Hget), Hflag;
           reflexivity | ].
  split; [ exact finishCommand_done | ].
  split; [ split; [ exact keepsRegFile_getCommand | ];
           split; [ exact keepsRegFile_wakeupCore
                  | exact keepsRegFile_updateSuspendablePin ] | ].
  split; [ exact engine_preserves | ].
  split.
  { intros Hflag Hep.
    assert (Hdisp : forall n, opcode cmd = n ->
              n <> CommandOpcode.value CommandOpcode.IDLE ->
              executeCommand s = _)
      by (intros n Hn Hne; apply (executeCommand_dispatch s cmd Hget);
          [ rewrite Hn; exact Hne | exact Hflag | exact Hep ]).
    split; [ | split; [ | split; [ | split ] ] ].
    + intros [Hop | Hop]; rewrite (Hdisp _ Hop) by discriminate;
        rewrite Hop; reflexivity.
    + intros Hop. rewrite (Hdisp _ Hop) by discriminate.
      rewrite Hop. reflexivity.
    + intros Hop. rewrite (Hdisp _ Hop) by discriminate.
      rewrite Hop. reflexivity.
    + intros Hop. rewrite (Hdisp _ Hop) by discriminate.
      rewrite Hop. simpl. unfold bind.
      destruct (wakeupCore_runs (with_cmdInProgress s true)) as [l Hwake].
      rewrite Hwake.
      set (s1 := with_threadContexts (with_cmdInProgress s true) l).
      assert (Hget1 : getCommand s1 = Done (cmd, s1))
        by (apply (getCommand_regFile s); [ reflexivity | exact Hget ]).
      rewrite (finishCommand_unfold s1 cmd Hget1). simpl.
      eexists. split; [ reflexivity | ]. simpl.
      rewrite RegFile_get_set_same. split; reflexivity.
    + intros Hop. rewrite (Hdisp _ Hop) by discriminate.
      rewrite Hop. simpl. unfold bind. split.
      * intros s1 Hunit. rewrite Hunit. split; [ reflexivity | ].
        intros Hflag1.
        destruct (getCommand_total s cmd s1 Hget) as [cmd1 Hget1].
        rewrite (finishCommand_unfold s1 cmd1 Hget1), Hflag1.
        eexists. split; [ reflexivity | ]. simpl.
        rewrite RegFile_get_set_same. split; reflexivity.
      * intros s'.
        destruct (msgUnit_incrementReadPtr (epId cmd) (with_cmdInProgress s true))
          as [[[] s1] | f]; [ | discriminate ].
        intros Hfin. apply finishCommand_done in Hfin. tauto. }
  split; [ exact (getCommand_nonzero s cmd Hget) | ].
  split.
  { intros pkt isCpuRequest.
    destruct (regAccess s pkt isCpuRequest) as [[rf pkt1] commandWritten] eqn:Hacc.
    destruct (updateSuspendablePin_runs (with_regFile s rf)) as (l & Hrun & _).
    eexists. split; [ exact Hrun | ]. split; [ reflexivity | ].
    split; [ reflexivity | ]. split.
    - intros Hmode. apply andb_true_iff in Hmode. destruct Hmode as [Hat Hcw].
      subst commandWritten.
      destruct (forwardRequestToRegFile_atomic s pkt isCpuRequest _ _ _ Hat Hacc)
        as (l' & Hrun' & ->).
      rewrite Hrun in Hrun'. inversion Hrun' as [Hl]. reflexivity.
    - intros Hmode. destruct atomicMode eqn:Hat.
      + simpl in Hmode. subst commandWritten.
        destruct (forwardRequestToRegFile_atomic s pkt isCpuRequest _ _ _ Hat Hacc)
          as (l' & _ & ->).
        eexists; eexists. split; [ reflexivity | ]. split; reflexivity.
      + destruct (forwardRequestToRegFile_timed s pkt isCpuRequest _ _ _ Hat Hacc)
          as (l' & _ & ->).
        eexists; eexists. split; [ reflexivity | ]. split; reflexivity. }
  split.
  { intros fresh contexts u s0 Hnew _.
    unfold Dtu_new, Dtu_body, bind, assert, update, ret, halt in Hnew.
    destruct (buf_size >=? maxNocPacketSize); inversion Hnew. reflexivity. }
  split; [ exact framed_retiredWhenZero | ].
  intros Hunits.
  split; [ exact finishCommand_retires | ].
  split; [ exact (executeCommand_retiredWhenZero Hunits) | ].
  intros s0 pkt isCpuRequest.
  destruct (regAccess s0 pkt isCpuRequest) as [[rf pkt1] commandWritten] eqn:Hacc.
  exact (forwardRequestToRegFile_retiredWhenZero s0 pkt isCpuRequest _ _ _
           Hunits Hacc).
Qed.

(** C5. In every register-file access, from the CPU or from the NoC,
    with a core attached: once the register file has served the
    request, the deny-suspend signal of the core is recomputed, and it
    is true if and only if [MSG_CNT] is nonzero then.  The access ends
    with this signal and this register file, unless it goes on, in
    atomic mode, to execute a command that was written. *)
Theorem deny_suspend_recomputed s pkt isCpuRequest :
  threadContexts s <> [] ->
  let '(rf, pkt1, commandWritten) := regAccess s pkt isCpuRequest in
  exists checked,
    updateSuspendablePin (with_regFile s rf) = Done (tt, checked) /\
    regFile checked = rf /\
    (denySuspend checked = Some true <-> RegFile.get rf (DtuR MSG_CNT) <> 0) /\
    (denySuspend checked = Some false <-> RegFile.get rf (DtuR MSG_CNT) = 0) /\
    (atomicMode && commandWritten = false ->
       exists pkt' s',
         forwardRequestToRegFile pkt isCpuRequest s = Done (pkt', s') /\
         regFile s' = rf /\ denySuspend s' = denySuspend checked) /\
    (atomicMode && commandWritten = true ->
       forwardRequestToRegFile pkt isCpuRequest s =
         bind executeCommand (fun _ => ret (setAddr pkt1 (addr pkt))) checked).
Proof.
  intros Hcore.
  destruct (regAccess s pkt isCpuRequest) as [[rf pkt1] commandWritten] eqn:Hacc.
  destruct (updateSuspendablePin_runs (with_regFile s rf)) as (l & Hrun & _ & Hl).
  destruct (threadContexts s) as [ | tc rest] eqn:Htcs; [ contradiction | ].
  specialize (Hl tc rest Htcs). simpl in Hl.
  rewrite gtb_0_nonzero in Hl by apply RegFile_get_range. subst l.
  eexists. split; [ exact Hrun | ]. split; [ reflexivity | ].
  unfold denySuspend at 1 2. simpl.
  split; [ | split; [ | split ] ].
  - destruct (Z.eqb_spec (RegFile.get rf (DtuR MSG_CNT)) 0) as [e | ne]; simpl;
      split; intros H; try discriminate H; try reflexivity; congruence.
  - destruct (Z.eqb_spec (RegFile.get rf (DtuR MSG_CNT)) 0) as [e | ne]; simpl;
      split; intros H; try discriminate H; try reflexivity; congruence.
  - intros Hmode. destruct atomicMode eqn:Hat.
    + simpl in Hmode. subst commandWritten.
      destruct (forwardRequestToRegFile_atomic s pkt isCpuRequest _ _ _ Hat Hacc)
        as (l & Hrun' & ->).
      rewrite Hrun in Hrun'. inversion Hrun' as [Hl].
      eexists; eexists. split; [ reflexivity | ]. split; reflexivity.
    + destruct (forwardRequestToRegFile_timed s pkt isCpuRequest _ _ _ Hat Hacc)
        as (l & Hrun' & ->).
      rewrite Hrun in Hrun'. inversion Hrun' as [Hl].
      eexists; eexists. split; [ reflexivity | ]. split; reflexivity.
  - intros Hmode. apply andb_true_iff in Hmode. destruct Hmode as [Hat Hcw].
    subst commandWritten.
    destruct (forwardRequestToRegFile_atomic s pkt isCpuRequest _ _ _ Hat Hacc)
      as (l & Hrun' & ->).
    rewrite Hrun in Hrun'. inversion Hrun' as [Hl]. reflexivity.
Qed.

(** C7, as amended. In timed mode a register-file access answers at
    the tick [clockEdge (ticksToCycles (headerDelay + payloadDelay) +
    registerAccessLatency)], where the delays are those of the packet as
    the register file left it, their sum is taken in 32 bits, that is
    modulo [2^32], and the latency is added in 64 bits.  When the
    register file leaves the delays alone, their sum fits 32 bits and
    the number of cycles fits 64, this is the tick of the incoming
    transport delay plus the latency.  The response is scheduled for
    that tick and, if the access wrote the command register, so is the
    execution of the command, after the response and for the very same
    tick.  Nothing else is scheduled, and no command is executed within
    the call. *)
Theorem timed_access_schedules_response_and_command s pkt isCpuRequest :
  atomicMode = false ->
  let '(rf, pkt1, commandWritten) := regAccess s pkt isCpuRequest in
  let when :=
    clockEdge
      (wrap64 (ticksToCycles (wrap32 (headerDelay pkt1 + payloadDelay pkt1))
               + registerAccessLatency)) in
  let response := clearDelays (setAddr pkt1 (addr pkt)) in
  (headerDelay pkt1 = headerDelay pkt -> payloadDelay pkt1 = payloadDelay pkt ->
   is_u32 (headerDelay pkt + payloadDelay pkt) ->
   is_u64 (ticksToCycles (headerDelay pkt + payloadDelay pkt)
           + registerAccessLatency) ->
   when = clockEdge (ticksToCycles (headerDelay pkt + payloadDelay pkt)
                     + registerAccessLatency)) /\
  exists s',
    forwardRequestToRegFile pkt isCpuRequest s = Done (response, s') /\
    cmdInProgress s' = cmdInProgress s /\
    trace s' =
      trace s
      ++ (if isCpuRequest then [SchedCpuResponse response when]
          else [SchedNocRequestFinished (clockEdge 1);
                SchedNocResponse response when])
      ++ (if commandWritten then [ScheduleExecuteCommandEvent when] else []).
Proof.
  intros Hmode.
  destruct (regAccess s pkt isCpuRequest) as [[rf pkt1] commandWritten] eqn:Hacc.
  cbv zeta. split.
  - intros Hh Hp H32 H64. rewrite Hh, Hp.
    rewrite (wrap32_small _ H32), (wrap64_small _ H64). reflexivity.
  - destruct (forwardRequestToRegFile_timed s pkt isCpuRequest _ _ _ Hmode Hacc)
      as (l & _ & ->).
    eexists. split; [ reflexivity | ]. split; reflexivity.
Qed.

(** C10. [forwardRequestToRegFile] leaves the address of the packet as
    it found it.  The register file is handed the packet with
    [regFileBaseAddr] taken off its address ([regAccess]); whatever
    packet it answers with is given the original address again before
    anything else is done: the packet of the response scheduled in timed
    mode, the packet at hand when a written command is executed in
    atomic mode, and the packet at the return of the call all carry the
    address the call was entered with. *)
Theorem forwardRequestToRegFile_keeps_address s pkt isCpuRequest :
  let '(rf, pkt1, commandWritten) := regAccess s pkt isCpuRequest in
  let restored := setAddr pkt1 (addr pkt) in
  addr restored = addr pkt /\
  (forall pkt' s',
     forwardRequestToRegFile pkt isCpuRequest s = Done (pkt', s') ->
     addr pkt' = addr pkt) /\
  (atomicMode = false ->
     exists s',
       forwardRequestToRegFile pkt isCpuRequest s
         = Done (clearDelays restored, s') /\
       forall p w,
         In (SchedCpuResponse p w) (trace s')
         \/ In (SchedNocResponse p w) (trace s') ->
         In (SchedCpuResponse p w) (trace s)
         \/ In (SchedNocResponse p w) (trace s)
         \/ addr p = addr pkt) /\
  (atomicMode = true -> commandWritten = false ->
     exists s',
       forwardRequestToRegFile pkt isCpuRequest s = Done (restored, s')) /\
  (atomicMode = true -> commandWritten = true ->
     exists checked,
       updateSuspendablePin (with_regFile s rf) = Done (tt, checked) /\
       forwardRequestToRegFile pkt isCpuRequest s =
         bind executeCommand (fun _ => ret restored) checked).
Proof.
  destruct (regAccess s pkt isCpuRequest) as [[rf pkt1] commandWritten] eqn:Hacc.
  cbv zeta.
  split; [ reflexivity | ].
  split; [ | split; [ | split ] ].
  - intros pkt' s'. destruct atomicMode eqn:Hmode.
    + destruct (forwardRequestToRegFile_atomic s pkt isCpuRequest _ _ _ Hmode Hacc)
        as (l & _ & ->).
      destruct commandWritten.
      * unfold bind, ret.
        destruct (executeCommand (with_threadContexts (with_regFile s rf) l))
          as [[[] s2] | f]; intros H; inversion H; reflexivity.
      * intros H; inversion H; reflexivity.
    + destruct (forwardRequestToRegFile_timed s pkt isCpuRequest _ _ _ Hmode Hacc)
        as (l & _ & ->).
      intros H; inversion H; reflexivity.
  - intros Hmode.
    destruct (forwardRequestToRegFile_timed s pkt isCpuRequest _ _ _ Hmode Hacc)
      as (l & _ & ->).
    eexists. split; [ reflexivity | ]. simpl.
    intros p w [Hin | Hin];
      (apply in_app_or in Hin; destruct Hin as [Hin | Hin];
       [ tauto | apply in_app_or in Hin; destruct Hin as [Hin | Hin] ]);
      destruct isCpuRequest, commandWritten; simpl in Hin;
      repeat (destruct Hin as [Hin | Hin]);
      try discriminate Hin; try contradiction;
      inversion Hin; right; right; reflexivity.
  - intros Hmode Hcw. subst commandWritten.
    destruct (forwardRequestToRegFile_atomic s pkt isCpuRequest _ _ _ Hmode Hacc)
      as (l & _ & ->).
    eexists. reflexivity.
  - intros Hmode Hcw. subst commandWritten.
    destruct (forwardRequestToRegFile_atomic s pkt isCpuRequest _ _ _ Hmode Hacc)
      as (l & Hrun & ->).
    eexists. split; [ exact Hrun | reflexivity ].
Qed.

(** ** Requests and their completion *)

(** The response to a forwarded cache-memory request: the offset of its
    NoC address, less the remote base address of endpoint
    [numEndpoints - 1], becomes its address and the physical address of
    its request, and it is handed to the cache-memory response path. *)
Lemma completeNocRequest_cache_response s pkt rest :
  senderState pkt = NocSenderState CACHE_MEM_REQ :: rest ->
  let reqAddr :=
    wrap64 (NocAddr_offset (addr pkt)
            - RegFile.get (regFile s)
                          (EpR (wrap32 (numEndpoints - 1)) REQ_REM_ADDR)) in
  let response :=
    mkPacket (cmd pkt) reqAddr (size pkt) (headerDelay pkt) (payloadDelay pkt)
             rest (mkRequest reqAddr (req_masterId (req pkt))) (data pkt) in
  completeNocRequest pkt s =
    Done (response, with_trace s (trace s ++ [SendCacheMemResponse response])).
Proof.
  intros Hst. cbv zeta.
  unfold completeNocRequest, bind at 1, popSenderState. rewrite Hst.
  reflexivity.
Qed.

Lemma strip_base (base a : Z) :
  is_u64 base -> is_u64 a -> wrap64 (wrap64 (base + a) - base) = a.
Proof.
  unfold is_u64. intros Hb Ha.
  destruct (Z_lt_le_dec (base + a) (2 ^ 64)) as [Hlt | Hge].
  - rewrite (wrap64_small (base + a)) by (unfold is_u64; lia).
    replace (base + a - base) with a by lia.
    apply wrap64_small. exact Ha.
  - rewrite (wrap64_once (base + a)) by lia. unfold wrap64.
    symmetry. apply (Z.mod_unique_pos _ _ (-1)); lia.
Qed.

(** When the memory endpoint is the last endpoint and the offset field
    of a NoC address holds the translated address, the response to a
    forwarded request gets the address of the request back. *)
Lemma cache_response_address_of_last_endpoint s pkt response core rest :
  is_u64 (addr pkt) ->
  memEp = wrap32 (numEndpoints - 1) ->
  let target := RegFile.get (regFile s) (EpR memEp REQ_REM_ADDR) in
  NocAddr_offset (NocAddr_getAddr core 0 (wrap64 (target + addr pkt)))
    = wrap64 (target + addr pkt) ->
  addr response = NocAddr_getAddr core 0 (wrap64 (target + addr pkt)) ->
  senderState response = NocSenderState CACHE_MEM_REQ :: rest ->
  exists pkt' s',
    completeNocRequest response s = Done (pkt', s') /\ addr pkt' = addr pkt.
Proof.
  intros Ha Hlast target Hcodec Haddr Hst.
  rewrite (completeNocRequest_cache_response s response rest Hst).
  eexists; eexists. split; [ reflexivity | ]. simpl.
  rewrite Haddr, Hcodec, <- Hlast. fold target.
  apply strip_base; [ apply RegFile_get_range | exact Ha ].
Qed.

(** C6. In atomic mode a request is resolved within the call that
    issues it.  [sendMemRequest] sends the packet atomically and runs
    [completeMemRequest] on the answer; [sendNocRequest] sends it
    functionally or atomically and runs [completeNocRequest] on the
    answer: the send is the last thing recorded when the completion
    handler starts, and what the handler returns is what the call
    returns.  A register-file access that wrote the command register
    runs [executeCommand] before it returns, with nothing scheduled in
    between. *)
Theorem atomic_mode_resolves_within_the_call s :
  atomicMode = true ->
  (forall pkt epId type delay,
     let sent :=
       pushSenderState (setMasterId pkt masterId)
                       (MemSenderState epId (req_masterId (req pkt)) type) in
     sendMemRequest pkt epId type delay s =
       completeMemRequest (memAtomic sent)
         (with_trace s (trace s ++ [SendAtomicMemRequest sent]))) /\
  (forall type pkt delay functional,
     let sent := pushSenderState pkt (NocSenderState type) in
     sendNocRequest type pkt delay functional s =
       if functional
       then completeNocRequest (nocFunctional sent)
              (with_trace s (trace s ++ [SendFunctionalNocRequest sent]))
       else completeNocRequest (nocAtomic sent)
              (with_trace s (trace s ++ [SendAtomicNocRequest sent]))) /\
  (forall pkt isCpuRequest,
     let '(rf, pkt1, commandWritten) := regAccess s pkt isCpuRequest in
     commandWritten = true ->
     exists checked,
       updateSuspendablePin (with_regFile s rf) = Done (tt, checked) /\
       regFile checked = rf /\ trace checked = trace s /\
       forwardRequestToRegFile pkt isCpuRequest s =
         bind executeCommand (fun _ => ret (setAddr pkt1 (addr pkt))) checked).
Proof.
  intros Hmode. split; [ | split ].
  - intros pkt epId type delay. cbv zeta.
    unfold sendMemRequest. rewrite Hmode. reflexivity.
  - intros type pkt delay functional. cbv zeta.
    unfold sendNocRequest. rewrite Hmode.
    destruct functional; reflexivity.
  - intros pkt isCpuRequest.
    destruct (regAccess s pkt isCpuRequest) as [[rf pkt1] commandWritten] eqn:Hacc.
    intros Hcw. subst commandWritten.
    destruct (forwardRequestToRegFile_atomic s pkt isCpuRequest _ _ _ Hmode Hacc)
      as (l & Hrun & ->).
    eexists. split; [ exact Hrun | ].
    split; [ reflexivity | ]. split; reflexivity.
Qed.
End EngineFacts.

(** ** Further properties of the engine *)

Section EngineFactsMore.
Context {MC : MemCmdInfo} {DD : DtuDecls} {NA : NocAddrCodec} {CK : Clock}
        {P : DtuParams} {U : Type}
        {PT : Ports} {RH : RegFileRequests} {SU : SubUnits (U := U)}.

Implicit Types (s : Dtu (U := U)) (pkt : Packet).

(** *** The cache-memory forwarding path, past its tests *)

Lemma permission_test s pkt :
  (isWrite pkt && (Z.land (memEpFlags s) WRITE =? 0))
  || (isRead pkt && (Z.land (memEpFlags s) READ =? 0)) = true
  <-> lacksPermission s pkt.
Proof.
  unfold lacksPermission.
  rewrite orb_true_iff, !andb_true_iff, !Z.eqb_eq. reflexivity.
Qed.

Lemma bounds_test s pkt :
  Packet_wf pkt ->
  (wrap64 (addr pkt + size pkt) <=? addr pkt)
  || (wrap64 (addr pkt + size pkt)
      >? RegFile.get (regFile s) (EpR memEp REQ_REM_SIZE)) = true
  <-> outOfBounds s pkt.
Proof.
  intros [Ha Hsz]. unfold outOfBounds, is_u64, is_u32 in *.
  assert (H32 : 2 ^ 32 < 2 ^ 64) by (apply Z.pow_lt_mono_r; lia).
  rewrite orb_true_iff, Z.gtb_ltb, Z.leb_le, Z.ltb_lt.
  destruct (Z_lt_le_dec (addr pkt + size pkt) (2 ^ 64)) as [Hlt | Hge].
  - rewrite wrap64_small by (unfold is_u64; lia). lia.
  - rewrite wrap64_once by lia. lia.
Qed.

(** Past its tests, [handleCacheMemRequest] sends the translated packet
    and returns [true]. *)
Lemma handleCacheMemRequest_forwards s pkt functional :
  Packet_wf pkt ->
  cmd pkt <> CleanEvict -> cmd pkt <> InvalidateReq ->
  ~ lacksPermission s pkt -> ~ outOfBounds s pkt ->
  handleCacheMemRequest pkt functional s =
    bind (sendNocRequest
            (if functional then CACHE_MEM_REQ_FUNC else CACHE_MEM_REQ)
            (translated s pkt) 1 functional)
         (fun p => ret (true, p)) s.
Proof.
  intros Hwf Hce Hinv Hperm Hbounds.
  unfold handleCacheMemRequest.
  destruct (MemCmd_eq_dec (cmd pkt) CleanEvict) as [e | _]; [ contradiction | ].
  destruct (MemCmd_eq_dec (cmd pkt) InvalidateReq) as [e | _]; [ contradiction | ].
  unfold bind at 1, this, getAddr, getSize.
  destruct ((isWrite pkt && (Z.land (memEpFlags s) WRITE =? 0))
            || (isRead pkt && (Z.land (memEpFlags s) READ =? 0))) eqn:Ht1.
  { apply permission_test in Ht1. contradiction. }
  destruct ((wrap64 (addr pkt + size pkt) <=? addr pkt)
            || (wrap64 (addr pkt + size pkt)
                >? RegFile.get (regFile s) (EpR memEp REQ_REM_SIZE))) eqn:Ht2.
  { apply (bounds_test s pkt Hwf) in Ht2. contradiction. }
  reflexivity.
Qed.

Lemma handleCacheMemRequest_refuses s pkt functional :
  Packet_wf pkt ->
  cmd pkt <> CleanEvict -> cmd pkt <> InvalidateReq ->
  lacksPermission s pkt \/ outOfBounds s pkt ->
  handleCacheMemRequest pkt functional s = Done ((false, pkt), s).
Proof.
  intros Hwf Hce Hinv H.
  unfold handleCacheMemRequest.
  destruct (MemCmd_eq_dec (cmd pkt) CleanEvict) as [e | _]; [ contradiction | ].
  destruct (MemCmd_eq_dec (cmd pkt) InvalidateReq) as [e | _]; [ contradiction | ].
  unfold bind, this, getAddr, getSize.
  destruct ((isWrite pkt && (Z.land (memEpFlags s) WRITE =? 0))
            || (isRead pkt && (Z.land (memEpFlags s) READ =? 0))) eqn:Ht1;
    [ reflexivity | ].
  destruct H as [H | H].
  - apply permission_test in H. congruence.
  - apply (bounds_test s pkt Hwf) in H. rewrite H. reflexivity.
Qed.

(** X1. For a packet that is neither a [CleanEvict] nor an
    [InvalidateReq], [handleCacheMemRequest] returns [false] exactly when
    the memory endpoint lacks the permission the packet needs, or the
    packet is empty, or its last byte lies beyond the 64-bit address
    space or beyond the remote size of the endpoint; in every other case
    a call that returns returns [true]. *)
Theorem handleCacheMemRequest_false_iff s pkt functional :
  Packet_wf pkt ->
  cmd pkt <> CleanEvict -> cmd pkt <> InvalidateReq ->
  ((exists pkt' s',
      handleCacheMemRequest pkt functional s = Done ((false, pkt'), s'))
   <-> lacksPermission s pkt \/ outOfBounds s pkt) /\
  (forall b pkt' s',
     handleCacheMemRequest pkt functional s = Done ((b, pkt'), s') ->
     b = false \/ (b = true /\ ~ lacksPermission s pkt /\ ~ outOfBounds s pkt)).
Proof.
  intros Hwf Hce Hinv.
  assert (Hdec : (lacksPermission s pkt \/ outOfBounds s pkt)
                 \/ (~ lacksPermission s pkt /\ ~ outOfBounds s pkt)).
  { destruct ((isWrite pkt && (Z.land (memEpFlags s) WRITE =? 0))
              || (isRead pkt && (Z.land (memEpFlags s) READ =? 0))) eqn:Ht1.
    - left; left. apply permission_test. exact Ht1.
    - destruct ((wrap64 (addr pkt + size pkt) <=? addr pkt)
                || (wrap64 (addr pkt + size pkt)
                    >? RegFile.get (regFile s) (EpR memEp REQ_REM_SIZE))) eqn:Ht2.
      + left; right. apply (bounds_test s pkt Hwf). exact Ht2.
      + right. split; intros H.
        * apply permission_test in H. congruence.
        * apply (bounds_test s pkt Hwf) in H. congruence. }
  assert (Htrue : ~ lacksPermission s pkt -> ~ outOfBounds s pkt ->
                  forall b pkt' s',
                    handleCacheMemRequest pkt functional s = Done ((b, pkt'), s') ->
                    b = true).
  { intros Hp Hb b pkt' s'.
    rewrite (handleCacheMemRequest_forwards s pkt functional) by assumption.
    unfold bind, ret.
    destruct (sendNocRequest _ _ _ _ s) as [[p s1] | f]; intros H;
      inversion H; reflexivity. }
  split.
  - split.
    + intros (pkt' & s' & H). destruct Hdec as [Hd | [Hp Hb]]; [ exact Hd | ].
      specialize (Htrue Hp Hb _ _ _ H). discriminate Htrue.
    + intros Hd. exists pkt, s.
      apply handleCacheMemRequest_refuses; assumption.
  - intros b pkt' s' H. destruct Hdec as [Hd | [Hp Hb]].
    + left. rewrite (handleCacheMemRequest_refuses s pkt functional) in H
        by assumption. inversion H. reflexivity.
    + right. split; [ exact (Htrue Hp Hb _ _ _ H) | split; assumption ].
Qed.

(** X2. In timed mode a permitted, non-empty, in-bounds request that is
    not functional is put on the NoC and nothing else happens:
    [handleCacheMemRequest] returns [true], the packet carries the
    address [NocAddr(targetCoreId, 0, targetAddr + addr)] of the memory
    endpoint and a [CACHE_MEM_REQ] sender state on top of those it had,
    one NoC request is scheduled for [clockEdge(Cycles(1))], and no
    response reaches the cache yet. *)
Theorem handleCacheMemRequest_timed_forward s pkt :
  atomicMode = false ->
  Packet_wf pkt ->
  cmd pkt <> CleanEvict -> cmd pkt <> InvalidateReq ->
  ~ lacksPermission s pkt -> ~ outOfBounds s pkt ->
  let sent := pushSenderState (translated s pkt) (NocSenderState CACHE_MEM_REQ) in
  handleCacheMemRequest pkt false s =
    Done ((true, sent),
          with_trace s (trace s ++ [SchedNocRequest sent (clockEdge 1)])) /\
  senderState sent = NocSenderState CACHE_MEM_REQ :: senderState pkt /\
  size sent = size pkt /\ req sent = req pkt /\ data sent = data pkt.
Proof.
  intros Hmode Hwf Hce Hinv Hperm Hbounds. cbv zeta.
  split; [ | repeat split ].
  rewrite (handleCacheMemRequest_forwards s pkt false) by assumption.
  unfold sendNocRequest. rewrite Hmode. reflexivity.
Qed.

(** X3. A [CleanEvict] that needs no response is dropped: the call
    returns [true] and leaves the engine and the packet alone; one that
    needs a response fails the assertion.  An [InvalidateReq] is refused
    with [false], nothing sent, whatever the memory endpoint allows. *)
Theorem handleCacheMemRequest_coherence_packets s pkt functional :
  (cmd pkt = CleanEvict -> needsResponse pkt = false ->
     handleCacheMemRequest pkt functional s = Done ((true, pkt), s)) /\
  (cmd pkt = CleanEvict -> needsResponse pkt = true ->
     handleCacheMemRequest pkt functional s = Halt AssertionFailed) /\
  (cmd pkt <> CleanEvict -> cmd pkt = InvalidateReq ->
     handleCacheMemRequest pkt functional s = Done ((false, pkt), s)).
Proof.
  unfold handleCacheMemRequest. repeat split.
  - intros Hc Hn.
    destruct (MemCmd_eq_dec (cmd pkt) CleanEvict); [ | contradiction ].
    unfold bind, assert. rewrite Hn. reflexivity.
  - intros Hc Hn.
    destruct (MemCmd_eq_dec (cmd pkt) CleanEvict); [ | contradiction ].
    unfold bind, assert. rewrite Hn. reflexivity.
  - intros Hc Hi.
    destruct (MemCmd_eq_dec (cmd pkt) CleanEvict); [ contradiction | ].
    destruct (MemCmd_eq_dec (cmd pkt) InvalidateReq); [ | contradiction ].
    reflexivity.
Qed.
(** *** Requests and their completion *)

Lemma popSenderState_top pkt st rest s :
  senderState pkt = st :: rest ->
  popSenderState pkt s = Done ((st, popped pkt), s).
Proof.
  intros H. unfold popSenderState, popped. rewrite H. reflexivity.
Qed.

(** X4. A functional request is resolved within the call in either mode
    and never reaches the cache-memory response path: past the tests,
    when the NoC answers with the sender state still on top, the call
    returns [true] with the answer less that sender state (its address
    is the one the NoC left, the base is not taken off), and all that is
    recorded is the functional send. *)
Theorem handleCacheMemRequest_functional s pkt rest :
  Packet_wf pkt ->
  cmd pkt <> CleanEvict -> cmd pkt <> InvalidateReq ->
  ~ lacksPermission s pkt -> ~ outOfBounds s pkt ->
  let sent :=
    pushSenderState (translated s pkt) (NocSenderState CACHE_MEM_REQ_FUNC) in
  senderState (nocFunctional sent) = NocSenderState CACHE_MEM_REQ_FUNC :: rest ->
  handleCacheMemRequest pkt true s =
    Done ((true, popped (nocFunctional sent)),
          with_trace s (trace s ++ [SendFunctionalNocRequest sent])) /\
  addr (popped (nocFunctional sent)) = addr (nocFunctional sent) /\
  senderState (popped (nocFunctional sent)) = rest.
Proof.
  intros Hwf Hce Hinv Hperm Hbounds sent Hst.
  split; [ | split; [ reflexivity | simpl; rewrite Hst; reflexivity ] ].
  rewrite (handleCacheMemRequest_forwards s pkt true) by assumption.
  unfold sendNocRequest, sendFunctionalNocRequest.
  fold sent. unfold bind, emit, update, ret.
  unfold completeNocRequest, bind.
  rewrite (popSenderState_top _ _ _ _ Hst). reflexivity.
Qed.

(** X5. [completeNocRequest] halts on a packet without a sender state and
    on one whose topmost sender state is not a NoC sender state; for a
    [MESSAGE], [READ_REQ] or [WRITE_REQ] response that neither reads nor
    writes it panics; for a [CACHE_MEM_REQ_FUNC] response it takes the
    sender state off and does nothing else. *)
Theorem completeNocRequest_edges s pkt :
  (senderState pkt = [] -> completeNocRequest pkt s = Halt NoSenderState) /\
  (forall st rest,
     senderState pkt = st :: rest ->
     (forall t, st <> NocSenderState t) ->
     completeNocRequest pkt s = Halt NoSenderState) /\
  (forall t rest,
     senderState pkt = NocSenderState t :: rest ->
     t <> CACHE_MEM_REQ -> t <> CACHE_MEM_REQ_FUNC ->
     isWrite pkt = false -> isRead pkt = false ->
     completeNocRequest pkt s = Halt Panicked) /\
  (forall rest,
     senderState pkt = NocSenderState CACHE_MEM_REQ_FUNC :: rest ->
     completeNocRequest pkt s = Done (popped pkt, s)).
Proof.
  repeat split.
  - intros H. unfold completeNocRequest, bind, popSenderState. rewrite H.
    reflexivity.
  - intros st rest H Hnot. unfold completeNocRequest, bind.
    rewrite (popSenderState_top _ _ _ _ H).
    destruct st as [t | e m ty | n]; [ | reflexivity | reflexivity ].
    exfalso. apply (Hnot t). reflexivity.
  - intros t rest H Hc Hf Hw Hr. unfold completeNocRequest, bind.
    rewrite (popSenderState_top _ _ _ _ H).
    change (isWrite (popped pkt)) with (isWrite pkt).
    change (isRead (popped pkt)) with (isRead pkt).
    rewrite Hw, Hr.
    destruct t; try reflexivity; contradiction.
  - intros rest H. unfold completeNocRequest, bind.
    rewrite (popSenderState_top _ _ _ _ H). reflexivity.
Qed.

(** A response that is no error and carries a memory sender state on top
    goes to the unit of its kind under the master id kept in the sender
    state, and is freed after. *)
Lemma completeMemRequest_delivers s pkt epId mid type rest :
  isError pkt = false -> isResponse pkt = true ->
  senderState pkt = MemSenderState epId mid type :: rest ->
  completeMemRequest pkt s =
    bind (delivered type epId (setMasterId (popped pkt) mid))
         (fun _ => freeRequest (setMasterId (popped pkt) mid)) s.
Proof.
  intros He Hr Hst. unfold completeMemRequest.
  unfold bind at 1, assert. rewrite He. simpl.
  unfold bind at 1. rewrite Hr. simpl.
  unfold bind at 1. rewrite (popSenderState_top _ _ _ _ Hst).
  destruct type; reflexivity.
Qed.

Lemma memRequest_answer_restored pkt epId type response :
  senderState response = senderState (memRequest pkt epId type) ->
  req response = req (memRequest pkt epId type) ->
  req (setMasterId (popped response) (req_masterId (req pkt))) = req pkt /\
  senderState (setMasterId (popped response) (req_masterId (req pkt)))
    = senderState pkt.
Proof.
  intros Hst Hreq. simpl. rewrite Hst, Hreq. simpl.
  destruct (req pkt). split; reflexivity.
Qed.

(** X6. The master id of a memory request makes a round trip in atomic
    mode: the request is sent under the master id of the engine, and when
    the memory answers with a response that is no error and keeps the
    sender states and the request, the unit the answer goes to (the
    transfer unit for [TRANSFER], the message unit for [HEADER]) sees it
    with the request and the sender states the caller passed in; the
    packet is freed after the unit has run. *)
Theorem sendMemRequest_atomic_round_trip s pkt epId type delay :
  atomicMode = true ->
  let sent := memRequest pkt epId type in
  isError (memAtomic sent) = false -> isResponse (memAtomic sent) = true ->
  senderState (memAtomic sent) = senderState sent ->
  req (memAtomic sent) = req sent ->
  exists back,
    sendMemRequest pkt epId type delay s =
      bind (delivered type epId back) (fun _ => freeRequest back)
           (with_trace s (trace s ++ [SendAtomicMemRequest sent])) /\
    req_masterId (req sent) = masterId /\
    req back = req pkt /\ senderState back = senderState pkt.
Proof.
  intros Hmode sent He Hr Hst Hreq.
  exists (setMasterId (popped (memAtomic sent)) (req_masterId (req pkt))).
  split; [ | split; [ reflexivity | ] ].
  - unfold sendMemRequest. rewrite Hmode.
    unfold sendAtomicMemRequest. fold (memRequest pkt epId type). fold sent.
    unfold bind at 1 2, emit, update, ret.
    apply completeMemRequest_delivers with (rest := senderState pkt);
      [ exact He | exact Hr | ].
    rewrite Hst. reflexivity.
  - apply (memRequest_answer_restored pkt epId type); assumption.
Qed.

(** X7. In timed mode [sendMemRequest] schedules the request, under the
    master id of the engine, for [clockEdge(delay)] and does nothing
    else; whenever a response to it that is no error and keeps the
    sender states and the request is completed, the unit sees it with
    the request and the sender states the caller had passed in. *)
Theorem sendMemRequest_timed_round_trip s pkt epId type delay :
  atomicMode = false ->
  let sent := memRequest pkt epId type in
  sendMemRequest pkt epId type delay s =
    Done (tt, with_trace s (trace s ++ [SchedMemRequest sent (clockEdge delay)])) /\
  req_masterId (req sent) = masterId /\
  (forall response s1,
     isError response = false -> isResponse response = true ->
     senderState response = senderState sent -> req response = req sent ->
     exists back,
       completeMemRequest response s1 =
         bind (delivered type epId back) (fun _ => freeRequest back) s1 /\
       req back = req pkt /\ senderState back = senderState pkt).
Proof.
  intros Hmode sent. split; [ | split; [ reflexivity | ] ].
  - unfold sendMemRequest. rewrite Hmode. reflexivity.
  - intros response s1 He Hr Hst Hreq.
    exists (setMasterId (popped response) (req_masterId (req pkt))).
    split.
    + apply completeMemRequest_delivers with (rest := senderState pkt);
        [ exact He | exact Hr | ].
      rewrite Hst. reflexivity.
    + apply (memRequest_answer_restored pkt epId type); assumption.
Qed.

(** X8. [completeMemRequest] fails its assertions on a packet that is an
    error and on one that is no response; past them it halts when the
    packet has no sender state or the topmost one is not a memory sender
    state.  In none of these cases is a unit run or the packet freed. *)
Theorem completeMemRequest_edges s pkt :
  (isError pkt = true -> completeMemRequest pkt s = Halt AssertionFailed) /\
  (isResponse pkt = false -> completeMemRequest pkt s = Halt AssertionFailed) /\
  (isError pkt = false -> isResponse pkt = true ->
     (senderState pkt = [] -> completeMemRequest pkt s = Halt NoSenderState) /\
     (forall st rest,
        senderState pkt = st :: rest ->
        (forall epId mid type, st <> MemSenderState epId mid type) ->
        completeMemRequest pkt s = Halt NoSenderState)).
Proof.
  split; [ | split ].
  - intros He. unfold completeMemRequest, bind, assert. rewrite He. reflexivity.
  - intros Hr. unfold completeMemRequest, bind, assert.
    destruct (isError pkt); simpl; [ reflexivity | ]. rewrite Hr. reflexivity.
  - intros He Hr. unfold completeMemRequest, bind, assert, ret.
    rewrite He, Hr. simpl. split.
    + intros H. unfold popSenderState. rewrite H. reflexivity.
    + intros st rest H Hnot.
      rewrite (popSenderState_top _ _ _ _ H).
      destruct st as [t | e m ty | n]; [ reflexivity | | reflexivity ].
      exfalso. apply (Hnot e m ty). reflexivity.
Qed.
(** *** The core's pins *)

(** X9. [wakeupCore] always returns and touches nothing but the first
    thread context: a suspended one becomes active, any other is left
    as it is, so that afterwards the first context is not suspended and
    a second call changes nothing; the deny-suspend pin, the other
    contexts, the register file and the command flag are kept, and
    nothing is sent. *)
Theorem wakeupCore_effect s :
  exists s',
    wakeupCore s = Done (tt, s') /\
    regFile s' = regFile s /\ cmdInProgress s' = cmdInProgress s /\
    units s' = units s /\ trace s' = trace s /\
    match threadContexts s with
    | [] => threadContexts s' = []
    | tc :: rest =>
        exists tc',
          threadContexts s' = tc' :: rest /\
          status tc' <> Suspended /\ _denySuspend tc' = _denySuspend tc /\
          (status tc = Suspended -> status tc' = Active) /\
          (status tc <> Suspended -> tc' = tc)
    end /\
    wakeupCore s' = Done (tt, s').
Proof.
  unfold wakeupCore, bind, this, update, ret.
  destruct s as [rf c tcs u t]. simpl.
  destruct tcs as [ | [st pin] rest]; simpl.
  - eexists. split; [ reflexivity | ]. simpl. repeat split.
  - destruct st; simpl; (eexists; split; [ reflexivity | ]); simpl;
      (repeat split; try reflexivity);
      try (eexists; repeat split; try reflexivity; simpl;
           try discriminate; try congruence).
Qed.

(** X10. [updateSuspendablePin] always returns and touches nothing but
    the pin of the first thread context (its status, the other contexts,
    the register file and the command flag are kept, nothing is sent);
    with no thread context it does nothing.  A second call changes
    nothing, and the order of [updateSuspendablePin] and [wakeupCore]
    does not matter. *)
Theorem updateSuspendablePin_effect s :
  exists s',
    updateSuspendablePin s = Done (tt, s') /\
    regFile s' = regFile s /\ cmdInProgress s' = cmdInProgress s /\
    units s' = units s /\ trace s' = trace s /\
    match threadContexts s with
    | [] => s' = s
    | tc :: rest =>
        exists tc',
          threadContexts s' = tc' :: rest /\ status tc' = status tc /\
          _denySuspend tc' = negb (RegFile.get (regFile s) (DtuR MSG_CNT) =? 0)
    end /\
    updateSuspendablePin s' = Done (tt, s') /\
    bind updateSuspendablePin (fun _ => wakeupCore) s
      = bind wakeupCore (fun _ => updateSuspendablePin) s.
Proof.
  assert (Hpin := gtb_0_nonzero _ (RegFile_get_range (regFile s) (DtuR MSG_CNT))).
  unfold updateSuspendablePin, wakeupCore, bind, this, update, ret.
  destruct s as [rf c tcs u t]. simpl in *.
  destruct tcs as [ | [st pin] rest]; simpl.
  - eexists. split; [ reflexivity | ]. simpl. repeat split.
  - eexists. split; [ reflexivity | ]. simpl.
    repeat split.
    + eexists. split; [ reflexivity | ]. simpl. split; [ reflexivity | ].
      exact Hpin.
    + destruct st; reflexivity.
Qed.

(** *** Decoding *)

Lemma getCommand_overflow s :
  64 < numCmdEpidBits + numCmdOpcodeBits < 2 ^ 32 ->
  getCommand s = Halt AssertionFailed.
Proof.
  intros H. unfold getCommand, bind, assert, halt.
  rewrite wrap32_small by (unfold is_u32; lia).
  destruct (Z.leb_spec (numCmdEpidBits + numCmdOpcodeBits) 64); [ lia | ].
  reflexivity.
Qed.

(** X11. When the two fields of the command register are wider, taken
    together, than the register, nothing that decodes a command runs:
    [getCommand], [executeCommand] and [finishCommand] fail the
    assertion in every state, whatever the register holds. *)
Theorem decode_width_overflow s :
  64 < numCmdEpidBits + numCmdOpcodeBits < 2 ^ 32 ->
  getCommand s = Halt AssertionFailed /\
  executeCommand s = Halt AssertionFailed /\
  finishCommand s = Halt AssertionFailed.
Proof.
  intros H. split; [ | split ].
  - apply getCommand_overflow. exact H.
  - unfold executeCommand, bind. rewrite getCommand_overflow by exact H.
    reflexivity.
  - unfold finishCommand, bind. rewrite getCommand_overflow by exact H.
    reflexivity.
Qed.

Lemma fields_of_word (reg : Z) :
  fieldsFit ->
  reg mod 2 ^ (numCmdOpcodeBits + numCmdEpidBits)
  = opcode (decoded reg) + 2 ^ numCmdOpcodeBits * epId (decoded reg).
Proof.
  intros (Ho & He & Hs). simpl.
  rewrite Z.pow_add_r by lia.
  apply Z.rem_mul_r.
  - apply Z.pow_nonzero; lia.
  - apply Z.pow_pos_nonneg; lia.
Qed.

Lemma decoded_range (reg : Z) :
  fieldsFit ->
  0 <= opcode (decoded reg) < 2 ^ numCmdOpcodeBits /\
  0 <= epId (decoded reg) < 2 ^ numCmdEpidBits.
Proof.
  intros (Ho & He & Hs). simpl. split; apply Z.mod_pos_bound;
    apply Z.pow_pos_nonneg; lia.
Qed.

(** X12. The command [getCommand] returns has an opcode below
    [2^numCmdOpcodeBits] and an endpoint id below [2^numCmdEpidBits]; so
    with at least [2^numCmdEpidBits] endpoints no register word can name
    an endpoint that [executeCommand] would refuse. *)
Theorem getCommand_range s cmd :
  fieldsFit ->
  getCommand s = Done (cmd, s) ->
  0 <= opcode cmd < 2 ^ numCmdOpcodeBits /\
  0 <= epId cmd < 2 ^ numCmdEpidBits /\
  (2 ^ numCmdEpidBits <= numEndpoints -> (epId cmd <? numEndpoints) = true).
Proof.
  intros Hfit Hget.
  rewrite (getCommand_decoded s Hfit) in Hget. inversion Hget as [Hcmd].
  destruct (decoded_range (RegFile.get (regFile s) (CmdR COMMAND)) Hfit)
    as [Hop Hep].
  assert (Ho := wrap32_nonneg_le _ (proj1 Hop)).
  assert (He := wrap32_nonneg_le _ (proj1 Hep)).
  unfold narrowed. cbn [opcode epId].
  split; [ lia | ]. split; [ lia | ].
  intros Hn. apply Z.ltb_lt. lia.
Qed.

Lemma narrowed_decoded (reg : Z) :
  fieldsFit -> numCmdOpcodeBits <= 32 -> numCmdEpidBits <= 32 ->
  narrowed (decoded reg) = decoded reg.
Proof.
  intros Hfit Ho32 He32.
  destruct (decoded_range reg Hfit) as [Hop Hep].
  destruct Hfit as (Ho & He & Hs).
  assert (H1 : 2 ^ numCmdOpcodeBits <= 2 ^ 32) by (apply Z.pow_le_mono_r; lia).
  assert (H2 : 2 ^ numCmdEpidBits <= 2 ^ 32) by (apply Z.pow_le_mono_r; lia).
  unfold narrowed.
  rewrite !wrap32_small by (unfold is_u32; lia).
  destruct (decoded reg); reflexivity.
Qed.

(** X13. Only the [numCmdOpcodeBits + numCmdEpidBits] low bits of the
    command register matter: two engines whose command registers agree
    on these bits decode the same command.  When neither field is wider
    than the 32 bits of its member of the command, the converse holds
    too: two engines that decode the same command agree on these bits. *)
Theorem getCommand_low_bits s1 s2 :
  fieldsFit ->
  let bits := numCmdOpcodeBits + numCmdEpidBits in
  let same :=
    exists cmd, getCommand s1 = Done (cmd, s1) /\ getCommand s2 = Done (cmd, s2) in
  let agree :=
    RegFile.get (regFile s1) (CmdR COMMAND) mod 2 ^ bits
    = RegFile.get (regFile s2) (CmdR COMMAND) mod 2 ^ bits in
  (agree -> same) /\
  (numCmdOpcodeBits <= 32 -> numCmdEpidBits <= 32 -> (same <-> agree)).
Proof.
  intros Hfit bits same agree. unfold same, agree, bits.
  rewrite !(getCommand_decoded _ Hfit).
  set (r1 := RegFile.get (regFile s1) (CmdR COMMAND)).
  set (r2 := RegFile.get (regFile s2) (CmdR COMMAND)).
  rewrite !(fields_of_word _ Hfit).
  destruct (decoded_range r1 Hfit) as [Ho1 He1].
  destruct (decoded_range r2 Hfit) as [Ho2 He2].
  assert (Hfwd : opcode (decoded r1) + 2 ^ numCmdOpcodeBits * epId (decoded r1)
                 = opcode (decoded r2) + 2 ^ numCmdOpcodeBits * epId (decoded r2) ->
                 decoded r1 = decoded r2).
  { intros Heq.
    assert (Hp : 0 < 2 ^ numCmdOpcodeBits)
      by (apply Z.pow_pos_nonneg; destruct Hfit; lia).
    assert (Hep : epId (decoded r1) = epId (decoded r2)) by nia.
    assert (Hop : opcode (decoded r1) = opcode (decoded r2)) by nia.
    destruct (decoded r1), (decoded r2). simpl in *. subst. reflexivity. }
  split.
  - intros Heq. exists (narrowed (decoded r1)). split; [ reflexivity | ].
    rewrite (Hfwd Heq). reflexivity.
  - intros Ho32 He32. split.
    + intros (cmd & H1 & H2). inversion H1 as [E1]. inversion H2 as [E2].
      rewrite !narrowed_decoded in E1, E2 by assumption.
      rewrite E1, E2. reflexivity.
    + intros Heq. exists (narrowed (decoded r1)). split; [ reflexivity | ].
      rewrite (Hfwd Heq). reflexivity.
Qed.

(** *** The engine as constructed *)

(** The constructor returns when a buffer holds a NoC packet, and with
    the four registers of the memory endpoint set. *)
Lemma Dtu_new_done fresh contexts (u : U) :
  maxNocPacketSize <= buf_size ->
  Dtu_new fresh contexts u =
    Done (mkDtu
            (RegFile.set
               (RegFile.set
                  (RegFile.set
                     (RegFile.set fresh (EpR memEp TGT_COREID) memory_pe)
                     (EpR memEp REQ_REM_ADDR) memory_offset)
                  (EpR memEp REQ_REM_SIZE) memory_size)
               (EpR memEp REQ_FLAGS) (Z.lor READ WRITE))
            false contexts u []).
Proof.
  intros H. unfold Dtu_new, Dtu_body, bind, assert, update, ret, halt.
  rewrite Z.geb_leb.
  destruct (Z.leb_spec maxNocPacketSize buf_size); [ reflexivity | lia ].
Qed.

Lemma Dtu_new_inv fresh contexts (u : U) s :
  Dtu_new fresh contexts u = Done s ->
  s = mkDtu
        (RegFile.set
           (RegFile.set
              (RegFile.set
                 (RegFile.set fresh (EpR memEp TGT_COREID) memory_pe)
                 (EpR memEp REQ_REM_ADDR) memory_offset)
              (EpR memEp REQ_REM_SIZE) memory_size)
           (EpR memEp REQ_FLAGS) (Z.lor READ WRITE))
        false contexts u [].
Proof.
  unfold Dtu_new, Dtu_body, bind, assert, update, ret, halt.
  destruct (buf_size >=? maxNocPacketSize); intros H; inversion H.
  reflexivity.
Qed.

Lemma Dtu_new_small_buffer fresh contexts (u : U) :
  buf_size < maxNocPacketSize ->
  Dtu_new fresh contexts u = Halt AssertionFailed.
Proof.
  intros H. unfold Dtu_new, Dtu_body, bind, assert, update, ret, halt.
  rewrite Z.geb_leb.
  destruct (Z.leb_spec maxNocPacketSize buf_size); [ lia | reflexivity ].
Qed.

Lemma Dtu_new_memEp fresh contexts (u : U) s :
  Dtu_new fresh contexts u = Done s ->
  RegFile.get (regFile s) (EpR memEp TGT_COREID) = wrap64 memory_pe /\
  RegFile.get (regFile s) (EpR memEp REQ_REM_ADDR) = wrap64 memory_offset /\
  RegFile.get (regFile s) (EpR memEp REQ_REM_SIZE) = wrap64 memory_size /\
  RegFile.get (regFile s) (EpR memEp REQ_FLAGS) = wrap64 (Z.lor READ WRITE).
Proof.
  intros H. apply Dtu_new_inv in H. subst s. simpl regFile.
  repeat split;
    repeat (rewrite RegFile_get_set_other by congruence);
    apply RegFile_get_set_same.
Qed.

Lemma Dtu_new_elsewhere fresh contexts (u : U) s r :
  Dtu_new fresh contexts u = Done s ->
  r <> EpR memEp TGT_COREID -> r <> EpR memEp REQ_REM_ADDR ->
  r <> EpR memEp REQ_REM_SIZE -> r <> EpR memEp REQ_FLAGS ->
  RegFile.get (regFile s) r = RegFile.get fresh r.
Proof.
  intros H H1 H2 H3 H4. apply Dtu_new_inv in H. subst s. simpl regFile.
  repeat (rewrite RegFile_get_set_other by congruence).
  reflexivity.
Qed.

(** X14. The constructor fails its assertion when a buffer is smaller
    than a NoC packet.  Otherwise it returns an engine whose four
    registers of the memory endpoint read the core, the offset and the
    size of the memory (as 64-bit words) and the flags [READ | WRITE],
    whose every other register reads what the register file held when
    it was handed over, with no command in progress and nothing sent;
    if the command register held a word with the opcode [IDLE] then,
    [executeCommand] on this engine does nothing. *)
Theorem Dtu_new_state fresh contexts (u : U) :
  (buf_size < maxNocPacketSize ->
   Dtu_new fresh contexts u = Halt AssertionFailed) /\
  (maxNocPacketSize <= buf_size ->
   exists s,
     Dtu_new fresh contexts u = Done s /\
     RegFile.get (regFile s) (EpR memEp TGT_COREID) = wrap64 memory_pe /\
     RegFile.get (regFile s) (EpR memEp REQ_REM_ADDR) = wrap64 memory_offset /\
     RegFile.get (regFile s) (EpR memEp REQ_REM_SIZE) = wrap64 memory_size /\
     RegFile.get (regFile s) (EpR memEp REQ_FLAGS) = wrap64 (Z.lor READ WRITE) /\
     (forall r,
        r <> EpR memEp TGT_COREID -> r <> EpR memEp REQ_REM_ADDR ->
        r <> EpR memEp REQ_REM_SIZE -> r <> EpR memEp REQ_FLAGS ->
        RegFile.get (regFile s) r = RegFile.get fresh r) /\
     cmdInProgress s = false /\ trace s = [] /\ threadContexts s = contexts /\
     (fieldsFit ->
      RegFile.get fresh (CmdR COMMAND) mod 2 ^ numCmdOpcodeBits = 0 ->
      executeCommand s = Done (tt, s))).
Proof.
  split; [ apply Dtu_new_small_buffer | ].
  intros Hbuf. eexists. split; [ apply Dtu_new_done; exact Hbuf | ].
  assert (Hnew := Dtu_new_done fresh contexts u Hbuf).
  destruct (Dtu_new_memEp _ _ _ _ Hnew) as (H1 & H2 & H3 & H4).
  do 4 (split; [ assumption | ]).
  split; [ exact (fun r => Dtu_new_elsewhere _ _ _ _ r Hnew) | ].
  do 3 (split; [ reflexivity | ]).
  intros Hfit Hidle. unfold executeCommand, bind.
  rewrite (getCommand_decoded _ Hfit).
  rewrite (Dtu_new_elsewhere _ _ _ _ (CmdR COMMAND) Hnew) by congruence.
  unfold narrowed, decoded. cbn [opcode]. rewrite Hidle. reflexivity.
Qed.

Lemma lor_u32 (a b : Z) : is_u32 a -> is_u32 b -> is_u32 (Z.lor a b).
Proof.
  unfold is_u32. intros Ha Hb.
  assert (H : Z.lor a b mod 2 ^ 32 = Z.lor a b).
  { rewrite <- !Z.land_ones, Z.land_lor_distr_l, !Z.land_ones by lia.
    rewrite !Z.mod_small by lia. reflexivity. }
  rewrite <- H. apply Z.mod_pos_bound. lia.
Qed.

Lemma land_lor_l (a b : Z) : Z.land (Z.lor a b) a = a.
Proof.
  apply Z.bits_inj'. intros n Hn.
  rewrite Z.land_spec, Z.lor_spec.
  destruct (Z.testbit a n), (Z.testbit b n); reflexivity.
Qed.

Lemma land_lor_r (a b : Z) : Z.land (Z.lor a b) b = b.
Proof. rewrite Z.lor_comm. apply land_lor_l. Qed.

Lemma Dtu_new_permits fresh contexts (u : U) s pkt :
  Dtu_new fresh contexts u = Done s ->
  0 < READ < 2 ^ 32 -> 0 < WRITE < 2 ^ 32 ->
  ~ lacksPermission s pkt.
Proof.
  intros Hnew Hr Hw.
  assert (Hflags : memEpFlags s = Z.lor READ WRITE).
  { unfold memEpFlags.
    destruct (Dtu_new_memEp _ _ _ _ Hnew) as (_ & _ & _ & ->).
    assert (H32 := lor_u32 READ WRITE).
    unfold is_u32 in H32.
    assert (Hlt : 2 ^ 32 < 2 ^ 64) by (apply Z.pow_lt_mono_r; lia).
    rewrite wrap64_small by (unfold is_u64; lia).
    apply wrap32_small. unfold is_u32. lia. }
  unfold lacksPermission. rewrite Hflags, land_lor_l, land_lor_r. lia.
Qed.

(** X15. With [READ] and [WRITE] two nonzero 32-bit flags, the engine as
    constructed gives the cache the whole memory region and nothing
    else: a request that is neither a [CleanEvict] nor an
    [InvalidateReq] is refused when it is empty or does not lie within
    [memory_size] bytes, never for its direction; any other is, in timed
    mode, scheduled for core [memory_pe] at [memory_offset + addr]. *)
Theorem Dtu_new_serves_region fresh contexts (u : U) s pkt :
  Dtu_new fresh contexts u = Done s ->
  0 < READ < 2 ^ 32 -> 0 < WRITE < 2 ^ 32 ->
  Packet_wf pkt ->
  cmd pkt <> CleanEvict -> cmd pkt <> InvalidateReq ->
  (size pkt = 0 \/ wrap64 memory_size < addr pkt + size pkt ->
   forall functional,
     handleCacheMemRequest pkt functional s = Done ((false, pkt), s)) /\
  (0 < size pkt -> addr pkt + size pkt <= wrap64 memory_size ->
   atomicMode = false ->
   let sent :=
     pushSenderState
       (setAddr pkt (NocAddr_getAddr (wrap32 (wrap64 memory_pe)) 0
                       (wrap64 (wrap64 memory_offset + addr pkt))))
       (NocSenderState CACHE_MEM_REQ) in
   handleCacheMemRequest pkt false s =
     Done ((true, sent), with_trace s [SchedNocRequest sent (clockEdge 1)])).
Proof.
  intros Hnew Hr Hw Hwf Hce Hinv.
  destruct (Dtu_new_memEp _ _ _ _ Hnew) as (Hcore & Hoff & Hsize & _).
  assert (Htrace : trace s = [])
    by (apply Dtu_new_inv in Hnew; subst s; reflexivity).
  split.
  - intros H functional. apply handleCacheMemRequest_refuses; try assumption.
    right. unfold outOfBounds. rewrite Hsize. tauto.
  - intros Hpos Hin Hmode.
    rewrite (handleCacheMemRequest_forwards s pkt false);
      try assumption.
    + unfold sendNocRequest. rewrite Hmode.
      unfold translated. rewrite Hcore, Hoff.
      unfold bind, schedNocRequest, emit, update, ret. rewrite Htrace.
      reflexivity.
    + apply (Dtu_new_permits _ _ _ _ _ Hnew); assumption.
    + unfold outOfBounds. rewrite Hsize.
      assert (Hs := wrap64_range memory_size). unfold is_u64 in Hs. lia.
Qed.
(** *** Commands written in atomic mode *)

Lemma wakeupCore_woken s :
  wakeupCore s = Done (tt, with_threadContexts s (woken (threadContexts s))).
Proof.
  unfold wakeupCore, bind, this, update, ret, woken.
  destruct s as [rf c tcs u t]. simpl.
  destruct tcs as [ | tc rest]; [ reflexivity | ].
  destruct (status tc); reflexivity.
Qed.

Lemma updateSuspendablePin_pinned s :
  updateSuspendablePin s
  = Done (tt, with_threadContexts s (pinned (regFile s) (threadContexts s))).
Proof.
  assert (Hpin := gtb_0_nonzero _ (RegFile_get_range (regFile s) (DtuR MSG_CNT))).
  unfold updateSuspendablePin, bind, this, update, ret, pinned.
  destruct s as [rf c tcs u t]. simpl in *.
  destruct tcs as [ | tc rest]; [ reflexivity | ].
  rewrite Hpin. reflexivity.
Qed.

(** An atomic register-file access, with the state after the pin
    written out. *)
Lemma forwardRequestToRegFile_atomic_pinned s pkt isCpuRequest rf pkt1 commandWritten :
  atomicMode = true ->
  regAccess s pkt isCpuRequest = (rf, pkt1, commandWritten) ->
  let checked :=
    mkDtu rf (cmdInProgress s) (pinned rf (threadContexts s)) (units s)
          (trace s) in
  forwardRequestToRegFile pkt isCpuRequest s =
    if commandWritten
    then bind executeCommand (fun _ => ret (setAddr pkt1 (addr pkt))) checked
    else Done (setAddr pkt1 (addr pkt), checked).
Proof.
  intros Hmode Hacc. cbv zeta.
  destruct (forwardRequestToRegFile_atomic s pkt isCpuRequest _ _ _ Hmode Hacc)
    as (l & Hrun & ->).
  rewrite updateSuspendablePin_pinned in Hrun. inversion Hrun as [Hl].
  reflexivity.
Qed.

Lemma executeCommand_idle s :
  fieldsFit ->
  RegFile.get (regFile s) (CmdR COMMAND) mod 2 ^ numCmdOpcodeBits = 0 ->
  executeCommand s = Done (tt, s).
Proof.
  intros Hfit Hidle. unfold executeCommand, bind.
  rewrite (getCommand_decoded s Hfit). unfold narrowed, decoded. cbn [opcode].
  rewrite Hidle. reflexivity.
Qed.

Lemma executeCommand_refused s :
  fieldsFit ->
  let cmd := narrowed (decoded (RegFile.get (regFile s) (CmdR COMMAND))) in
  opcode cmd <> 0 ->
  cmdInProgress s = true \/ numEndpoints <= epId cmd ->
  executeCommand s = Halt AssertionFailed.
Proof.
  intros Hfit cmd Hop Hbad. unfold executeCommand, bind at 1.
  rewrite (getCommand_decoded s Hfit). fold cmd. clearbody cmd.
  destruct (Z.eqb_spec (opcode cmd) (CommandOpcode.value CommandOpcode.IDLE));
    [ contradiction | ].
  unfold bind, this, assert, ret, halt.
  destruct (cmdInProgress s); [ reflexivity | simpl ].
  destruct Hbad as [Hbad | Hbad]; [ discriminate Hbad | ].
  destruct (Z.ltb_spec (epId cmd) numEndpoints); [ lia | reflexivity ].
Qed.

(** X16. In atomic mode a register-file access that leaves a word with
    the opcode [IDLE] in the command register starts nothing, whether or
    not the register file reports the command register written and
    whether or not a command is in progress: the call returns the packet
    with its address restored, and the engine differs from the one before
    by the register file and the pin only. *)
Theorem atomic_idle_write_starts_nothing s pkt isCpuRequest :
  atomicMode = true -> fieldsFit ->
  let '(rf, pkt1, commandWritten) := regAccess s pkt isCpuRequest in
  RegFile.get rf (CmdR COMMAND) mod 2 ^ numCmdOpcodeBits = 0 ->
  forwardRequestToRegFile pkt isCpuRequest s =
    Done (setAddr pkt1 (addr pkt),
          mkDtu rf (cmdInProgress s) (pinned rf (threadContexts s)) (units s)
                (trace s)).
Proof.
  intros Hmode Hfit.
  destruct (regAccess s pkt isCpuRequest) as [[rf pkt1] commandWritten] eqn:Hacc.
  intros Hidle.
  rewrite (forwardRequestToRegFile_atomic_pinned s pkt isCpuRequest _ _ _ Hmode Hacc).
  destruct commandWritten; [ | reflexivity ].
  unfold bind. rewrite executeCommand_idle by assumption. reflexivity.
Qed.

(** X17. One command at a time, and only for endpoints that exist: in
    atomic mode a register-file access that writes a command other than
    [IDLE] while a command is in progress, or a command whose endpoint
    id, as the 32-bit member of the command holds it, is not below
    [numEndpoints], halts the simulation on a failed assertion. *)
Theorem atomic_command_write_refused s pkt isCpuRequest :
  atomicMode = true -> fieldsFit ->
  let '(rf, pkt1, commandWritten) := regAccess s pkt isCpuRequest in
  let cmd := narrowed (decoded (RegFile.get rf (CmdR COMMAND))) in
  commandWritten = true -> opcode cmd <> 0 ->
  cmdInProgress s = true \/ numEndpoints <= epId cmd ->
  forwardRequestToRegFile pkt isCpuRequest s = Halt AssertionFailed.
Proof.
  intros Hmode Hfit.
  destruct (regAccess s pkt isCpuRequest) as [[rf pkt1] commandWritten] eqn:Hacc.
  intros cmd Hcw Hop Hbad. subst commandWritten.
  rewrite (forwardRequestToRegFile_atomic_pinned s pkt isCpuRequest _ _ _ Hmode Hacc).
  unfold bind. rewrite executeCommand_refused; [ reflexivity | exact Hfit | | ].
  - exact Hop.
  - exact Hbad.
Qed.

(** X18. In atomic mode a register-file access that writes a
    [WAKEUP_CORE] command for an existing endpoint, while no command is
    in progress, is over when the call returns: the first thread context
    has its pin set from the message counter and, had it been suspended,
    is active; the command register reads zero again, every other
    register is as the register file left it, no command is in progress
    and nothing was sent or scheduled. *)
Theorem atomic_wakeup_write s pkt isCpuRequest :
  atomicMode = true -> fieldsFit ->
  let '(rf, pkt1, commandWritten) := regAccess s pkt isCpuRequest in
  let cmd := decoded (RegFile.get rf (CmdR COMMAND)) in
  commandWritten = true ->
  opcode cmd = CommandOpcode.value CommandOpcode.WAKEUP_CORE ->
  epId cmd < numEndpoints -> cmdInProgress s = false ->
  let after :=
    mkDtu (RegFile.set rf (CmdR COMMAND) 0) false
          (woken (pinned rf (threadContexts s))) (units s) (trace s) in
  forwardRequestToRegFile pkt isCpuRequest s
    = Done (setAddr pkt1 (addr pkt), after) /\
  RegFile.get (regFile after) (CmdR COMMAND) = 0 /\
  (forall r, r <> CmdR COMMAND ->
     RegFile.get (regFile after) r = RegFile.get rf r) /\
  (forall tc rest, threadContexts s = tc :: rest ->
     exists tc', threadContexts after = tc' :: rest /\
       status tc' <> Suspended /\
       _denySuspend tc' = negb (RegFile.get rf (DtuR MSG_CNT) =? 0)).
Proof.
  intros Hmode Hfit.
  destruct (regAccess s pkt isCpuRequest) as [[rf pkt1] commandWritten] eqn:Hacc.
  intros cmd Hcw Hop Hep Hflag after. subst commandWritten.
  split; [ | split; [ | split ] ].
  - rewrite (forwardRequestToRegFile_atomic_pinned s pkt isCpuRequest _ _ _ Hmode Hacc).
    set (checked := mkDtu rf (cmdInProgress s) (pinned rf (threadContexts s))
                          (units s) (trace s)).
    assert (Hget : getCommand checked = Done (narrowed cmd, checked))
      by (apply (getCommand_decoded checked Hfit)).
    assert (Hop' : opcode (narrowed cmd)
                   = CommandOpcode.value CommandOpcode.WAKEUP_CORE)
      by (unfold narrowed; cbn [opcode]; rewrite Hop; reflexivity).
    assert (Hep' : epId (narrowed cmd) < numEndpoints).
    { assert (Hr := decoded_range (RegFile.get rf (CmdR COMMAND)) Hfit).
      fold cmd in Hr.
      assert (Hle := wrap32_nonneg_le _ (proj1 (proj2 Hr))).
      unfold narrowed. cbn [epId]. lia. }
    clearbody cmd.
    unfold bind at 1.
    rewrite (executeCommand_dispatch checked (narrowed cmd) Hget);
      [ | rewrite Hop'; discriminate | exact Hflag | exact Hep' ].
    rewrite Hop'.
    change (CommandOpcode.of_value (CommandOpcode.value CommandOpcode.WAKEUP_CORE))
      with (Some CommandOpcode.WAKEUP_CORE).
    cbv iota. unfold bind at 1. rewrite wakeupCore_woken.
    set (s2 := with_threadContexts (with_cmdInProgress checked true)
                 (woken (threadContexts (with_cmdInProgress checked true)))).
    assert (Hget2 : getCommand s2 = Done (narrowed cmd, s2))
      by (apply (getCommand_regFile checked); [ reflexivity | exact Hget ]).
    rewrite (finishCommand_unfold s2 (narrowed cmd) Hget2). reflexivity.
  - simpl. apply RegFile_get_set_same.
  - intros r Hr. simpl. apply RegFile_get_set_other. congruence.
  - intros tc rest Htcs. simpl. rewrite Htcs. simpl.
    destruct (status tc) eqn:Hst; simpl;
      (eexists; split; [ reflexivity | split; [ | reflexivity ] ]);
      simpl; congruence.
Qed.
(** X19. With the memory endpoint the last endpoint, a permitted
    in-bounds request is, in atomic mode, answered within the call under
    its own address: when the NoC returns the packet with its address and
    sender states and the offset field of the NoC address holds the
    translated address, [handleCacheMemRequest] returns [true] with the
    address and the physical address of the request set to the address
    the packet came with, the sender states as they were, and exactly
    the atomic send and the cache-memory response recorded. *)
Theorem atomic_cache_request_round_trip s pkt :
  atomicMode = true -> memEp = wrap32 (numEndpoints - 1) ->
  Packet_wf pkt ->
  cmd pkt <> CleanEvict -> cmd pkt <> InvalidateReq ->
  ~ lacksPermission s pkt -> ~ outOfBounds s pkt ->
  let sent := pushSenderState (translated s pkt) (NocSenderState CACHE_MEM_REQ) in
  addr (nocAtomic sent) = addr sent ->
  senderState (nocAtomic sent) = senderState sent ->
  NocAddr_offset (addr sent)
    = wrap64 (RegFile.get (regFile s) (EpR memEp REQ_REM_ADDR) + addr pkt) ->
  exists response,
    handleCacheMemRequest pkt false s =
      Done ((true, response),
            with_trace s (trace s ++ [SendAtomicNocRequest sent;
                                      SendCacheMemResponse response])) /\
    addr response = addr pkt /\ paddr (req response) = addr pkt /\
    senderState response = senderState pkt.
Proof.
  intros Hmode Hlast Hwf Hce Hinv Hperm Hbounds sent Haddr Hst Hcodec.
  assert (Hstrip :
    wrap64 (NocAddr_offset (addr (nocAtomic sent))
            - RegFile.get (regFile s)
                (EpR (wrap32 (numEndpoints - 1)) REQ_REM_ADDR)) = addr pkt).
  { rewrite Haddr, Hcodec, <- Hlast.
    apply strip_base; [ apply RegFile_get_range | apply Hwf ]. }
  eexists. split.
  - rewrite (handleCacheMemRequest_forwards s pkt false) by assumption.
    unfold sendNocRequest. rewrite Hmode. fold sent.
    unfold sendAtomicNocRequest, bind at 1 2 3, emit, update, ret.
    rewrite (completeNocRequest_cache_response _ (nocAtomic sent)
               (senderState pkt)) by (rewrite Hst; reflexivity).
    cbv zeta. simpl regFile. rewrite Hstrip.
    unfold with_trace. simpl. rewrite <- app_assoc. reflexivity.
  - simpl. repeat split.
Qed.
End EngineFactsMore.

(** ** The tester *)

Lemma DtuTest_request_some cfg clk c :
  c < 16 -> exists pkt, DtuTest.request cfg clk c = Some pkt.
Proof.
  intros H. unfold DtuTest.request.
  destruct (c <? 4); [ eexists; reflexivity | ].
  destruct (c <? 8); [ eexists; reflexivity | ].
  destruct (c <? 12); [ eexists; reflexivity | ].
  destruct (Z.ltb_spec c 16); [ eexists; reflexivity | lia ].
Qed.

Lemma DtuTest_request_none cfg clk c :
  16 <= c -> DtuTest.request cfg clk c = None.
Proof.
  intros H. unfold DtuTest.request.
  destruct (Z.ltb_spec c 4); [ lia | ].
  destruct (Z.ltb_spec c 8); [ lia | ].
  destruct (Z.ltb_spec c 12); [ lia | ].
  destruct (Z.ltb_spec c 16); [ lia | reflexivity ].
Qed.

(** X20. Once its counter has reached 16 the tester is done: a tick
    builds no request, hands nothing to the port, schedules no further
    tick and leaves a request waiting for a retry where it is; it only
    counts. *)
Theorem DtuTest_tick_done cfg accepted clk st :
  16 <= DtuTest.counter st ->
  DtuTest.tick cfg accepted clk st
  = DtuTest.mkState (DtuTest.counter st + 1) (DtuTest.retryPkt st)
                    (DtuTest.trace st).
Proof.
  intros H. unfold DtuTest.tick.
  rewrite DtuTest_request_none by exact H. reflexivity.
Qed.

(** X21. While the counter is below 16, a tick in atomic mode sends the
    request of that counter value atomically, deletes it, schedules the
    next tick for [clockEdge(Cycles(1))] and counts, whatever the port
    would answer to a timing request; the request is one byte under the
    master id and the context of the tester, and nothing is left for a
    retry. *)
Theorem DtuTest_tick_atomic cfg accepted clk st :
  DtuTest.atomic cfg = true -> DtuTest.counter st < 16 ->
  exists pkt,
    DtuTest.request cfg clk (DtuTest.counter st) = Some pkt /\
    DtuTest.size pkt = 1 /\ DtuTest.masterId pkt = DtuTest.master cfg /\
    DtuTest.contextId pkt = DtuTest.id cfg /\
    DtuTest.tick cfg accepted clk st
    = DtuTest.mkState (DtuTest.counter st + 1) (DtuTest.retryPkt st)
        (DtuTest.trace st
         ++ [DtuTest.SendAtomic pkt; DtuTest.Delete pkt;
             DtuTest.ScheduleTick (DtuTest.nextEdge clk)]).
Proof.
  intros Hat Hc.
  destruct (DtuTest_request_some cfg clk _ Hc) as [pkt Hreq].
  exists pkt. split; [ exact Hreq | ].
  assert (Hshape : DtuTest.size pkt = 1 /\
                   DtuTest.masterId pkt = DtuTest.master cfg /\
                   DtuTest.contextId pkt = DtuTest.id cfg).
  { unfold DtuTest.request in Hreq.
    destruct (DtuTest.counter st <? 4); [ inversion Hreq; repeat split | ].
    destruct (DtuTest.counter st <? 8); [ inversion Hreq; repeat split | ].
    destruct (DtuTest.counter st <? 12); [ inversion Hreq; repeat split | ].
    destruct (DtuTest.counter st <? 16); [ inversion Hreq; repeat split | ].
    discriminate Hreq. }
  destruct Hshape as (H1 & H2 & H3).
  repeat (split; [ assumption | ]).
  unfold DtuTest.tick. rewrite Hreq.
  unfold DtuTest.sendPkt. rewrite Hat.
  unfold DtuTest.completeRequest, DtuTest.record. simpl.
  rewrite <- !app_assoc. reflexivity.
Qed.

(** X22. Each read phase of the tester reads what the write phase
    before it wrote, by the other way: the request of counter value
    [c + 4] is a read, and for [c] in 0..3 it reads, at
    [0x10000000 + c], the byte [c] written at [c]; for [c] in 8..11 it
    reads, at [c], the byte (the current cycle, as a byte) written at
    [0x10000000 + c]. *)
Theorem DtuTest_reads_follow_writes cfg clk clk' c :
  (0 <= c < 4 \/ 8 <= c < 12) ->
  exists w r,
    DtuTest.request cfg clk c = Some w /\
    DtuTest.request cfg clk' (c + 4) = Some r /\
    DtuTest.cmd w = DtuTest.WriteReq /\ DtuTest.cmd r = DtuTest.ReadReq /\
    (c < 4 ->
       DtuTest.paddr w = c /\ DtuTest.byte w = Some c /\
       DtuTest.paddr r = 0x10000000 + DtuTest.paddr w) /\
    (8 <= c ->
       DtuTest.paddr w = 0x10000000 + c /\
       DtuTest.byte w = Some (DtuTest.curCycle clk mod 256) /\
       DtuTest.paddr r + 0x10000000 = DtuTest.paddr w).
Proof.
  intros Hc. unfold DtuTest.request.
  assert (H64 : 2 ^ 32 < 2 ^ 64) by (apply Z.pow_lt_mono_r; lia).
  assert (H32 : 2 ^ 32 = 4294967296) by reflexivity.
  destruct Hc as [Hc | Hc].
  - destruct (Z.ltb_spec c 4); [ | lia ].
    destruct (Z.ltb_spec (c + 4) 4); [ lia | ].
    destruct (Z.ltb_spec (c + 4) 8); [ | lia ].
    eexists; eexists. repeat (split; [ reflexivity | ]). split.
    + intros _. cbn [DtuTest.paddr DtuTest.byte].
      rewrite !wrap64_small by (unfold is_u64; lia).
      rewrite Z.mod_small by lia. repeat split. lia.
    + intros Hge. lia.
  - destruct (Z.ltb_spec c 4); [ lia | ].
    destruct (Z.ltb_spec c 8); [ lia | ].
    destruct (Z.ltb_spec c 12); [ | lia ].
    destruct (Z.ltb_spec (c + 4) 4); [ lia | ].
    destruct (Z.ltb_spec (c + 4) 8); [ lia | ].
    destruct (Z.ltb_spec (c + 4) 12); [ lia | ].
    destruct (Z.ltb_spec (c + 4) 16); [ | lia ].
    eexists; eexists. repeat (split; [ reflexivity | ]). split.
    + intros Hlt. lia.
    + intros _. cbn [DtuTest.paddr DtuTest.byte].
      rewrite !wrap64_small by (unfold is_u64; lia).
      repeat split; lia.
Qed.

Lemma DtuTest_refusedRetries_waiting clk n st pkt :
  DtuTest.retryPkt st = Some pkt ->
  DtuTest.refusedRetries clk n st
  = Done (DtuTest.mkState (DtuTest.counter st) (Some pkt)
            (DtuTest.trace st ++ repeat (DtuTest.SendTimingReq pkt) n)).
Proof.
  revert st. induction n as [ | n IH]; intros st Hretry.
  - simpl. rewrite app_nil_r. destruct st; simpl in *. subst. reflexivity.
  - simpl. unfold DtuTest.recvRetry. rewrite Hretry.
    rewrite IH by exact Hretry. simpl.
    rewrite <- app_assoc. reflexivity.
Qed.

(** X23. Backpressure in timed mode.  A tick whose request the port
    refuses keeps the request for a retry and schedules no further tick.
    As long as the port refuses the retries, that same request is offered
    again and stays kept; the retry it accepts offers it once more,
    clears the slot and schedules the next tick for
    [clockEdge(Cycles(1))].  From the tick to the accepted retry the
    port is handed that one request, [n + 2] times, and nothing else. *)
Theorem DtuTest_refused_then_retried cfg clk clk' st n :
  DtuTest.atomic cfg = false -> DtuTest.counter st < 16 ->
  exists pkt waiting,
    DtuTest.request cfg clk (DtuTest.counter st) = Some pkt /\
    DtuTest.tick cfg false clk st = waiting /\
    waiting = DtuTest.mkState (DtuTest.counter st + 1) (Some pkt)
                (DtuTest.trace st ++ [DtuTest.SendTimingReq pkt]) /\
    exists retried,
      DtuTest.refusedRetries clk' n waiting = Done retried /\
      DtuTest.retryPkt retried = Some pkt /\
      DtuTest.recvRetry true clk' retried
      = Done (DtuTest.mkState (DtuTest.counter st + 1) None
                (DtuTest.trace st
                 ++ repeat (DtuTest.SendTimingReq pkt) (n + 2)
                 ++ [DtuTest.ScheduleTick (DtuTest.nextEdge clk')])).
Proof.
  intros Hat Hc.
  destruct (DtuTest_request_some cfg clk _ Hc) as [pkt Hreq].
  exists pkt. eexists. split; [ exact Hreq | ].
  assert (Htick :
    DtuTest.tick cfg false clk st
    = DtuTest.mkState (DtuTest.counter st + 1) (Some pkt)
        (DtuTest.trace st ++ [DtuTest.SendTimingReq pkt])).
  { unfold DtuTest.tick. rewrite Hreq.
    unfold DtuTest.sendPkt. rewrite Hat. reflexivity. }
  split; [ reflexivity | ]. split; [ exact Htick | ].
  rewrite Htick.
  eexists. split.
  - apply DtuTest_refusedRetries_waiting. reflexivity.
  - split; [ reflexivity | ].
    unfold DtuTest.recvRetry, DtuTest.record. simpl.
    replace (n + 2)%nat with ((1 + n) + 1)%nat by lia.
    rewrite (repeat_app (DtuTest.SendTimingReq pkt) (1 + n) 1).
    rewrite (repeat_app (DtuTest.SendTimingReq pkt) 1 n).
    simpl. rewrite <- !app_assoc. reflexivity.
Qed.

Lemma DtuTest_ticks_no_retry cfg port clock n st :
  (DtuTest.atomic cfg = true \/ forall c, port c = true) ->
  DtuTest.retryPkt st = None ->
  DtuTest.retryPkt (DtuTest.ticks cfg port clock n st) = None.
Proof.
  intros Hok. revert st. induction n as [ | n IH]; intros st Hnone.
  - exact Hnone.
  - simpl. apply IH. unfold DtuTest.tick.
    destruct (DtuTest.request cfg (clock (DtuTest.counter st)) (DtuTest.counter st))
      as [pkt | ]; [ | exact Hnone ].
    unfold DtuTest.sendPkt.
    destruct (DtuTest.atomic cfg) eqn:Hat; [ exact Hnone | ].
    destruct Hok as [Hok | Hok]; [ discriminate Hok | ].
    rewrite Hok. exact Hnone.
Qed.

(** X24. A retry is only for a request that was refused: in atomic
    mode, and in timed mode with a port that accepts every request, no
    number of ticks from the start leaves a request waiting, and
    [recvRetry] then fails its assertion. *)
Theorem DtuTest_retry_needs_refusal cfg port clock n curTick accepted clk :
  (DtuTest.atomic cfg = true \/ forall c, port c = true) ->
  DtuTest.retryPkt (DtuTest.ticks cfg port clock n (DtuTest.init curTick)) = None /\
  DtuTest.recvRetry accepted clk
    (DtuTest.ticks cfg port clock n (DtuTest.init curTick))
  = Halt AssertionFailed.
Proof.
  intros Hok.
  assert (H := DtuTest_ticks_no_retry cfg port clock n (DtuTest.init curTick)
                 Hok eq_refl).
  split; [ exact H | ].
  unfold DtuTest.recvRetry. rewrite H. reflexivity.
Qed.

Lemma DtuTest_sends_app evs evs' :
  DtuTest.sends (evs ++ evs') = DtuTest.sends evs ++ DtuTest.sends evs'.
Proof.
  induction evs as [ | e evs IH]; [ reflexivity | ].
  destruct e; simpl; rewrite IH; reflexivity.
Qed.

Lemma DtuTest_tick_sends cfg accepted clk st :
  DtuTest.counter (DtuTest.tick cfg accepted clk st) = DtuTest.counter st + 1 /\
  DtuTest.sends (DtuTest.trace (DtuTest.tick cfg accepted clk st))
  = DtuTest.sends (DtuTest.trace st)
    ++ match DtuTest.request cfg clk (DtuTest.counter st) with
       | Some pkt => [pkt]
       | None => []
       end.
Proof.
  unfold DtuTest.tick.
  destruct (DtuTest.request cfg clk (DtuTest.counter st)) as [pkt | ].
  - unfold DtuTest.sendPkt, DtuTest.completeRequest, DtuTest.record.
    destruct (DtuTest.atomic cfg); [ | destruct accepted ]; simpl;
      (split; [ reflexivity | ]);
      rewrite !DtuTest_sends_app; simpl; rewrite ?app_nil_r; reflexivity.
  - simpl. rewrite app_nil_r. split; reflexivity.
Qed.

Lemma DtuTest_ticks_sends cfg port clock n st :
  DtuTest.counter (DtuTest.ticks cfg port clock n st)
    = DtuTest.counter st + Z.of_nat n /\
  DtuTest.sends (DtuTest.trace (DtuTest.ticks cfg port clock n st))
  = DtuTest.sends (DtuTest.trace st)
    ++ DtuTest.plan cfg clock (DtuTest.counter st) n.
Proof.
  revert st. induction n as [ | n IH]; intros st.
  - simpl. rewrite app_nil_r. split; [ lia | reflexivity ].
  - cbn [DtuTest.ticks DtuTest.plan].
    destruct (IH (DtuTest.tick cfg (port (DtuTest.counter st))
                               (clock (DtuTest.counter st)) st)) as [Hc Hs].
    destruct (DtuTest_tick_sends cfg (port (DtuTest.counter st))
                (clock (DtuTest.counter st)) st) as [Hc1 Hs1].
    rewrite Hc, Hs, Hc1, Hs1. split; [ lia | ].
    rewrite <- app_assoc. reflexivity.
Qed.

Lemma DtuTest_plan_done cfg clock c n :
  16 <= c -> DtuTest.plan cfg clock c n = [].
Proof.
  revert c. induction n as [ | n IH]; intros c Hc; [ reflexivity | ].
  simpl. rewrite DtuTest_request_none by exact Hc.
  apply IH. lia.
Qed.

Lemma DtuTest_plan_app cfg clock c n m :
  DtuTest.plan cfg clock c (n + m)
  = DtuTest.plan cfg clock c n
    ++ DtuTest.plan cfg clock (c + Z.of_nat n) m.
Proof.
  revert c. induction n as [ | n IH]; intros c.
  - simpl. rewrite Z.add_0_r. reflexivity.
  - cbn [Nat.add DtuTest.plan]. rewrite IH, <- app_assoc.
    replace (c + 1 + Z.of_nat n) with (c + Z.of_nat (S n)) by lia.
    reflexivity.
Qed.

(** X25. In either mode and whatever the port answers, each tick hands
    the port exactly the request of its counter value, once.  From the
    start, sixteen ticks or more hand over sixteen requests and no
    more: writes at 0..3, reads at 0x10000000..0x10000003, writes at
    0x10000008..0x1000000B and reads at 8..11, in this order. *)
Theorem DtuTest_requests_of_a_run cfg port clock n curTick :
  let st := DtuTest.ticks cfg port clock n (DtuTest.init curTick) in
  DtuTest.counter st = Z.of_nat n /\
  DtuTest.sends (DtuTest.trace st) = DtuTest.plan cfg clock 0 n /\
  ((16 <= n)%nat ->
   map (fun pkt => (DtuTest.cmd pkt, DtuTest.paddr pkt))
       (DtuTest.sends (DtuTest.trace st))
   = [(DtuTest.WriteReq, 0); (DtuTest.WriteReq, 1);
      (DtuTest.WriteReq, 2); (DtuTest.WriteReq, 3);
      (DtuTest.ReadReq, 0x10000000); (DtuTest.ReadReq, 0x10000001);
      (DtuTest.ReadReq, 0x10000002); (DtuTest.ReadReq, 0x10000003);
      (DtuTest.WriteReq, 0x10000008); (DtuTest.WriteReq, 0x10000009);
      (DtuTest.WriteReq, 0x1000000A); (DtuTest.WriteReq, 0x1000000B);
      (DtuTest.ReadReq, 8); (DtuTest.ReadReq, 9);
      (DtuTest.ReadReq, 10); (DtuTest.ReadReq, 11)]).
Proof.
  cbv zeta.
  destruct (DtuTest_ticks_sends cfg port clock n (DtuTest.init curTick))
    as [Hc Hs].
  split; [ rewrite Hc; reflexivity | ].
  split; [ rewrite Hs; reflexivity | ].
  intros Hn. rewrite Hs. simpl DtuTest.sends. simpl DtuTest.counter.
  cbn [app].
  replace n with (16 + (n - 16))%nat by lia.
  rewrite DtuTest_plan_app, (DtuTest_plan_done _ _ (0 + Z.of_nat 16)) by lia.
  rewrite app_nil_r. reflexivity.
Qed.

(** ** The engine at work on the bench *)

Import Bench.

(** C2. With the memory endpoint at endpoint 0 of eight and its region at
    0x40000, on a register file that held zeros when the engine was
    constructed, a read of 16 bytes at 0x500 is forwarded in atomic mode
    and answered within the call; the response handed to the
    cache-memory response path carries the address 0x40500, not 0x500:
    [completeNocRequest] takes off the remote base of endpoint
    [numEndpoints - 1], which is zero, where [handleCacheMemRequest] had
    added that of [memEp]. *)
Theorem cache_response_address_with_first_endpoint :
  let pkt := packet ReadReq 0x500 0x10 [] in
  exists s response s',
    Dtu_new (P := firstEpParams) blank [core] tt = Done s /\
    handleCacheMemRequest (P := firstEpParams) pkt false s
      = Done ((true, response), s') /\
    In (SendCacheMemResponse response) (trace s') /\
    addr response = 0x40500 /\
    addr response <> addr pkt.
Proof.
  cbv zeta. eexists; eexists; eexists.
  split; [ vm_compute; reflexivity | ].
  split; [ vm_compute; reflexivity | ].
  split; [ right; left; reflexivity | ].
  split; [ reflexivity | discriminate ].
Qed.

(** *** Instances of the statements above *)

Lemma getCommand_fields_witness :
  fieldsFit /\
  getCommand (with_regFile boot (RegFile.set (regFile boot) (CmdR COMMAND) 0x3D))
    = Done (mkCommand 5 7,
            with_regFile boot (RegFile.set (regFile boot) (CmdR COMMAND) 0x3D)).
Proof.
  assert (Hfit : fieldsFit) by (unfold fieldsFit; simpl; lia).
  split; [ exact Hfit | ].
  apply (proj1 (proj2 (getCommand_fields _ Hfit) 5 7 ltac:(simpl; lia)
                 ltac:(lia) ltac:(simpl; lia) ltac:(lia))).
  reflexivity.
Defined.

(** With an endpoint field of 61 bits next to the three of the opcode,
    the word [((2^61 - 1) << 3) | 6] in the command register decodes to
    the endpoint id [2^32 - 1], not to [2^61 - 1]: the member of the
    command keeps 32 bits. *)
Lemma getCommand_narrows_endpoint_id :
  let e := 2 ^ 61 - 1 in
  let s :=
    with_regFile (bootWith longEpidParams)
      (RegFile.set (regFile (bootWith longEpidParams)) (CmdR COMMAND)
                   (Z.lor (Z.shiftl e numCmdOpcodeBits) 6)) in
  fieldsFit (P := longEpidParams) /\
  0 <= 6 < 2 ^ numCmdOpcodeBits /\
  0 <= e < 2 ^ numCmdEpidBits (P := longEpidParams) /\
  RegFile.get (regFile s) (CmdR COMMAND)
    = Z.lor (Z.shiftl e numCmdOpcodeBits) 6 /\
  getCommand (P := longEpidParams) s = Done (mkCommand 6 (2 ^ 32 - 1), s) /\
  getCommand (P := longEpidParams) s <> Done (mkCommand 6 e, s).
Proof.
  cbv zeta.
  split; [ unfold fieldsFit; simpl; lia | ].
  split; [ simpl; lia | ].
  split; [ simpl; lia | ].
  split; [ vm_compute; reflexivity | ].
  assert (Hget : getCommand (P := longEpidParams)
            (with_regFile (bootWith longEpidParams)
               (RegFile.set (regFile (bootWith longEpidParams)) (CmdR COMMAND)
                  (Z.lor (Z.shiftl (2 ^ 61 - 1) numCmdOpcodeBits) 6)))
          = Done (mkCommand 6 (2 ^ 32 - 1),
                  with_regFile (bootWith longEpidParams)
                    (RegFile.set (regFile (bootWith longEpidParams)) (CmdR COMMAND)
                       (Z.lor (Z.shiftl (2 ^ 61 - 1) numCmdOpcodeBits) 6)))).
  { rewrite getCommand_decoded by (unfold fieldsFit; simpl; lia).
    simpl regFile. rewrite RegFile_get_set_same.
    vm_compute. reflexivity. }
  split; [ exact Hget | ].
  rewrite Hget. intros H. inversion H.
Qed.

Lemma handleCacheMemRequest_denies_witness :
  let pkt := packet ReadReq 0xFF8 0x10 [] in
  Packet_wf pkt /\
  RegFile.get (regFile boot) (EpR memEp REQ_REM_SIZE) < addr pkt + size pkt /\
  handleCacheMemRequest pkt false boot = Done ((false, pkt), boot).
Proof.
  cbv zeta.
  assert (Hwf : Packet_wf (packet ReadReq 0xFF8 0x10 []))
    by (unfold Packet_wf, is_u64, is_u32; simpl; lia).
  assert (Hout : RegFile.get (regFile boot) (EpR memEp REQ_REM_SIZE)
                 < addr (packet ReadReq 0xFF8 0x10 [])
                   + size (packet ReadReq 0xFF8 0x10 []))
    by (vm_compute; reflexivity).
  split; [ exact Hwf | ]. split; [ exact Hout | ].
  apply handleCacheMemRequest_denies.
  - exact Hwf.
  - simpl; discriminate.
  - simpl; discriminate.
  - right; right; right. exact Hout.
Defined.

Lemma empty_request_denied_witness :
  let pkt := packet WriteReq 0x500 0 [] in
  is_u64 (addr pkt) /\ size pkt = 0 /\
  handleCacheMemRequest pkt true boot = Done ((false, pkt), boot).
Proof.
  cbv zeta.
  assert (Ha : is_u64 (addr (packet WriteReq 0x500 0 [])))
    by (unfold is_u64; simpl; lia).
  split; [ exact Ha | ]. split; [ reflexivity | ].
  apply empty_request_denied.
  - exact Ha.
  - reflexivity.
  - simpl; discriminate.
  - simpl; discriminate.
Defined.

(** The engine after the command word [w] was written. *)
Lemma getCommand_on_bench (w : Z) :
  getCommand (with_regFile boot (RegFile.set (regFile boot) (CmdR COMMAND) w))
  = Done (narrowed (decoded (wrap64 w)),
          with_regFile boot (RegFile.set (regFile boot) (CmdR COMMAND) w)).
Proof.
  rewrite getCommand_decoded by (unfold fieldsFit; simpl; lia).
  simpl regFile. rewrite RegFile_get_set_same. reflexivity.
Qed.

Lemma executeCommand_guards_witness :
  let s := with_regFile boot (RegFile.set (regFile boot) (CmdR COMMAND) 0x3F) in
  getCommand s = Done (mkCommand 7 7, s) /\
  executeCommand s = Halt Panicked.
Proof.
  cbv zeta.
  assert (Hget := getCommand_on_bench 0x3F).
  change (narrowed (decoded (wrap64 0x3F))) with (mkCommand 7 7) in Hget.
  split; [ exact Hget | ].
  apply (proj2 (executeCommand_guards _ _ Hget)).
  - discriminate.
  - reflexivity.
  - simpl; lia.
  - reflexivity.
Defined.

(** The units of the bench keep the command register and the flag. *)
Lemma bench_units_retiredWhenZero :
  unitsPreserve (SU := subUnits) (retiredWhenZero (U := unit)).
Proof.
  assert (Hret : preserves (retiredWhenZero (U := unit)) (ret tt))
    by (intros s a s' Hs H; inversion H; subst; exact Hs).
  repeat split; try (intros; exact Hret).
  intros ep s a s' Hs H. inversion H. subst. exact Hs.
Qed.

Lemma command_register_cleared_by_retirement_witness :
  let s := with_regFile boot (RegFile.set (regFile boot) (CmdR COMMAND) 0x3E) in
  getCommand s = Done (mkCommand 6 7, s) /\
  unitsPreserve (SU := subUnits) (retiredWhenZero (U := unit)) /\
  (exists s',
     executeCommand s = Done (tt, s') /\
     RegFile.get (regFile s') (CmdR COMMAND) = 0 /\ cmdInProgress s' = false) /\
  preserves (retiredWhenZero (U := unit)) executeCommand.
Proof.
  cbv zeta.
  assert (Hget := getCommand_on_bench 0x3E).
  change (narrowed (decoded (wrap64 0x3E))) with (mkCommand 6 7) in Hget.
  split; [ exact Hget | ].
  split; [ exact bench_units_retiredWhenZero | ].
  destruct (command_register_cleared_by_retirement _ _ Hget)
    as (_ & _ & _ & _ & _ & Hsync & _ & _ & _ & _ & Hinv).
  split.
  - destruct Hsync as (_ & _ & _ & Hwake & _).
    + reflexivity.
    + simpl; lia.
    + apply Hwake. reflexivity.
  - exact (proj1 (proj2 (Hinv bench_units_retiredWhenZero))).
Defined.

(** In atomic mode the CPU writes a [SEND] command for endpoint 7, which
    the message unit takes and has not retired when the call returns,
    and then writes zero to the command register: the register reads
    zero while the command is in progress, and [finishCommand] was not
    called. *)
Lemma command_register_zeroed_while_busy :
  let send := packet WriteReq 0x5C0000008 8 [0x39] in
  let zero := packet WriteReq 0x5C0000008 8 [0] in
  exists p1 s1 p2 s2,
    forwardRequestToRegFile send true boot = Done (p1, s1) /\
    RegFile.get (regFile s1) (CmdR COMMAND) = 0x39 /\
    cmdInProgress s1 = true /\
    forwardRequestToRegFile zero true s1 = Done (p2, s2) /\
    RegFile.get (regFile s2) (CmdR COMMAND) = 0 /\
    cmdInProgress s2 = true.
Proof.
  cbv zeta. eexists; eexists; eexists; eexists.
  split; [ vm_compute; reflexivity | ].
  split; [ vm_compute; reflexivity | ].
  split; [ reflexivity | ].
  split; [ vm_compute; reflexivity | ].
  split; [ vm_compute; reflexivity | reflexivity ].
Qed.

Lemma deny_suspend_recomputed_witness :
  threadContexts boot <> [] /\
  exists checked,
    updateSuspendablePin
      (with_regFile boot (RegFile.set (regFile boot) (DtuR MSG_CNT) 1))
      = Done (tt, checked) /\
    denySuspend checked = Some true.
Proof.
  assert (Hcore : threadContexts boot <> []) by discriminate.
  split; [ exact Hcore | ].
  assert (W := deny_suspend_recomputed boot
                 (packet WriteReq 0x5C0000000 8 [1]) false Hcore).
  change (regAccess boot (packet WriteReq 0x5C0000000 8 [1]) false)
    with (RegFile.set (regFile boot) (DtuR MSG_CNT) 1,
          makeResponse (setAddr (packet WriteReq 0x5C0000000 8 [1]) 0), false) in W.
  cbv iota beta in W.
  destruct W as (checked & Hrun & Hrf & Htrue & _).
  exists checked. split; [ exact Hrun | ].
  apply Htrue. rewrite RegFile_get_set_same. discriminate.
Defined.

Lemma atomic_mode_resolves_within_the_call_witness :
  let sent :=
    pushSenderState (packet ReadReq 0x500 0x10 []) (NocSenderState CACHE_MEM_REQ) in
  atomicMode = true /\
  sendNocRequest CACHE_MEM_REQ (packet ReadReq 0x500 0x10 []) 1 false boot
    = completeNocRequest (nocAtomic sent)
        (with_trace boot (trace boot ++ [SendAtomicNocRequest sent])).
Proof.
  cbv zeta. split; [ reflexivity | ].
  exact (proj1 (proj2 (atomic_mode_resolves_within_the_call boot eq_refl))
           CACHE_MEM_REQ (packet ReadReq 0x500 0x10 []) 1 false).
Defined.

Lemma timed_access_schedules_response_and_command_witness :
  let s := bootWith timedParams in
  let response := makeResponse (packet WriteReq 0x5C0000008 8 [0x3E]) in
  atomicMode (P := timedParams) = false /\
  exists s',
    forwardRequestToRegFile (P := timedParams)
      (packet WriteReq 0x5C0000008 8 [0x3E]) true s = Done (response, s') /\
    trace s' = [SchedCpuResponse response 2000; ScheduleExecuteCommandEvent 2000].
Proof.
  cbv zeta. split; [ reflexivity | ].
  assert (W := timed_access_schedules_response_and_command
                 (P := timedParams) (bootWith timedParams)
                 (packet WriteReq 0x5C0000008 8 [0x3E]) true eq_refl).
  change (regAccess (P := timedParams) (bootWith timedParams)
            (packet WriteReq 0x5C0000008 8 [0x3E]) true)
    with (RegFile.set (regFile (bootWith timedParams))
                      (CmdR COMMAND) 0x3E,
          makeResponse (setAddr (packet WriteReq 0x5C0000008 8 [0x3E]) 8), true) in W.
  cbv iota beta zeta in W.
  destruct W as (_ & s' & Hrun & _ & Htrace).
  exists s'. split; [ exact Hrun | exact Htrace ].
Defined.

(** In timed mode a write to the command register arrives with a header
    delay and a payload delay of [2^31] ticks each.  The transport delay
    is [2^32] ticks, with the latency of two cycles that is the tick
    4294970000; the sum of the two 32-bit delays is zero, and the
    response and the execution of the command are scheduled for the
    tick 2000. *)
Lemma timed_access_delay_sum_wraps :
  let pkt :=
    mkPacket WriteReq 0x5C0000008 8 0x80000000 0x80000000 []
             (mkRequest 0x5C0000008 11) [0x3E] in
  atomicMode (P := timedParams) = false /\
  Packet_wf pkt /\
  clockEdge (ticksToCycles (headerDelay pkt + payloadDelay pkt)
             + registerAccessLatency (P := timedParams)) = 4294970000 /\
  exists response s',
    forwardRequestToRegFile (P := timedParams) pkt true (bootWith timedParams)
      = Done (response, s') /\
    trace s' = [SchedCpuResponse response 2000; ScheduleExecuteCommandEvent 2000].
Proof.
  cbv zeta. split; [ reflexivity | ].
  split; [ unfold Packet_wf, is_u64, is_u32; simpl; lia | ].
  split; [ vm_compute; reflexivity | ].
  eexists; eexists. split; [ vm_compute; reflexivity | reflexivity ].
Qed.

(** *** Instances of the further properties *)

Ltac refute H :=
  vm_compute in H; first [ discriminate H | exact (H eq_refl) | contradiction ].

Lemma bench_fieldsFit : fieldsFit.
Proof. unfold fieldsFit; simpl; lia. Qed.

Lemma bench_read_wf : Packet_wf (packet ReadReq 0x500 0x10 []).
Proof. unfold Packet_wf, is_u64, is_u32; simpl; lia. Qed.

Lemma bench_read_permitted :
  ~ lacksPermission boot (packet ReadReq 0x500 0x10 []).
Proof. intros [[H _] | [_ H]]; refute H. Qed.

Lemma bench_read_permitted_timed :
  ~ lacksPermission (P := timedParams) (bootWith timedParams)
      (packet ReadReq 0x500 0x10 []).
Proof. intros [[H _] | [_ H]]; refute H. Qed.

Lemma bench_read_in_bounds :
  ~ outOfBounds boot (packet ReadReq 0x500 0x10 []).
Proof. intros [H | [H | H]]; refute H. Qed.

Lemma bench_read_in_bounds_timed :
  ~ outOfBounds (P := timedParams) (bootWith timedParams)
      (packet ReadReq 0x500 0x10 []).
Proof. intros [H | [H | H]]; refute H. Qed.

Lemma handleCacheMemRequest_false_iff_witness :
  let pkt := packet ReadReq 0xFF8 0x10 [] in
  Packet_wf pkt /\ outOfBounds boot pkt /\
  exists pkt' s', handleCacheMemRequest pkt false boot = Done ((false, pkt'), s').
Proof.
  cbv zeta.
  assert (Hwf : Packet_wf (packet ReadReq 0xFF8 0x10 []))
    by (unfold Packet_wf, is_u64, is_u32; simpl; lia).
  assert (Hout : outOfBounds boot (packet ReadReq 0xFF8 0x10 []))
    by (right; right; vm_compute; reflexivity).
  split; [ exact Hwf | ]. split; [ exact Hout | ].
  apply (proj2 (proj1 (handleCacheMemRequest_false_iff boot _ false Hwf
                         ltac:(simpl; discriminate) ltac:(simpl; discriminate)))).
  right. exact Hout.
Defined.

Lemma handleCacheMemRequest_timed_forward_witness :
  let s := bootWith timedParams in
  let pkt := packet ReadReq 0x500 0x10 [] in
  let sent :=
    pushSenderState (translated (P := timedParams) s pkt)
                    (NocSenderState CACHE_MEM_REQ) in
  atomicMode (P := timedParams) = false /\
  handleCacheMemRequest (P := timedParams) pkt false s =
    Done ((true, sent),
          with_trace s (trace s ++ [SchedNocRequest sent (clockEdge 1)])).
Proof.
  cbv zeta. split; [ reflexivity | ].
  exact (proj1 (handleCacheMemRequest_timed_forward (P := timedParams)
                  (bootWith timedParams)
                  (packet ReadReq 0x500 0x10 [])
                  eq_refl bench_read_wf
                  ltac:(simpl; discriminate) ltac:(simpl; discriminate)
                  bench_read_permitted_timed
                  bench_read_in_bounds_timed)).
Defined.

Lemma handleCacheMemRequest_functional_witness :
  let pkt := packet ReadReq 0x500 0x10 [] in
  let sent :=
    pushSenderState (translated boot pkt) (NocSenderState CACHE_MEM_REQ_FUNC) in
  senderState (nocFunctional sent) = [NocSenderState CACHE_MEM_REQ_FUNC] /\
  handleCacheMemRequest pkt true boot =
    Done ((true, popped (nocFunctional sent)),
          with_trace boot (trace boot ++ [SendFunctionalNocRequest sent])).
Proof.
  cbv zeta. split; [ reflexivity | ].
  exact (proj1 (handleCacheMemRequest_functional (P := atomicParams)
                  (PT := ports) (SU := subUnits) boot
                  (packet ReadReq 0x500 0x10 []) []
                  bench_read_wf
                  ltac:(simpl; discriminate) ltac:(simpl; discriminate)
                  bench_read_permitted bench_read_in_bounds
                  eq_refl)).
Defined.

Lemma sendMemRequest_atomic_round_trip_witness :
  let pkt := packet ReadReq 0x500 0x10 [] in
  let sent := memRequest pkt 2 TRANSFER in
  atomicMode = true /\ isResponse (memAtomic sent) = true /\
  exists back,
    sendMemRequest pkt 2 TRANSFER 1 boot =
      bind (delivered TRANSFER 2 back) (fun _ => freeRequest back)
           (with_trace boot (trace boot ++ [SendAtomicMemRequest sent])) /\
    req back = req pkt.
Proof.
  cbv zeta. split; [ reflexivity | ]. split; [ reflexivity | ].
  destruct (sendMemRequest_atomic_round_trip (P := atomicParams) (PT := ports)
              (SU := subUnits) boot
              (packet ReadReq 0x500 0x10 []) 2 TRANSFER 1
              eq_refl eq_refl eq_refl eq_refl eq_refl)
    as (back & Hrun & _ & Hreq & _).
  exists back. split; [ exact Hrun | exact Hreq ].
Defined.

Lemma sendMemRequest_timed_round_trip_witness :
  let s := bootWith timedParams in
  let pkt := packet WriteReq 0x500 0x10 [] in
  let sent := memRequest (P := timedParams) pkt 2 HEADER in
  atomicMode (P := timedParams) = false /\
  sendMemRequest (P := timedParams) pkt 2 HEADER 3 s =
    Done (tt, with_trace s (trace s ++ [SchedMemRequest sent 3000])).
Proof.
  cbv zeta. split; [ reflexivity | ].
  exact (proj1 (sendMemRequest_timed_round_trip (P := timedParams)
                  (bootWith timedParams)
                  (packet WriteReq 0x500 0x10 []) 2 HEADER 3 eq_refl)).
Defined.

Lemma decode_width_overflow_witness :
  64 < numCmdEpidBits (P := wideParams) + numCmdOpcodeBits < 2 ^ 32 /\
  executeCommand (P := wideParams) (bootWith wideParams)
    = Halt AssertionFailed.
Proof.
  assert (H : 64 < numCmdEpidBits (P := wideParams) + numCmdOpcodeBits < 2 ^ 32)
    by (simpl; lia).
  split; [ exact H | ].
  exact (proj1 (proj2 (decode_width_overflow (P := wideParams)
                         (bootWith wideParams) H))).
Defined.

Lemma getCommand_range_witness :
  let s := with_regFile boot (RegFile.set (regFile boot) (CmdR COMMAND) 0x3E) in
  fieldsFit /\ getCommand s = Done (mkCommand 6 7, s) /\
  0 <= 7 < 2 ^ numCmdEpidBits.
Proof.
  cbv zeta.
  assert (Hget := getCommand_on_bench 0x3E).
  change (narrowed (decoded (wrap64 0x3E))) with (mkCommand 6 7) in Hget.
  split; [ exact bench_fieldsFit | ]. split; [ exact Hget | ].
  exact (proj1 (proj2 (getCommand_range _ _ bench_fieldsFit Hget))).
Defined.

Lemma Dtu_new_state_witness :
  maxNocPacketSize <= buf_size /\
  buf_size (DtuParams := smallBufParams) < maxNocPacketSize (P := smallBufParams) /\
  Dtu_new (P := smallBufParams) blank [core] tt = Halt AssertionFailed /\
  exists s,
    Dtu_new blank [core] tt = Done s /\
    RegFile.get (regFile s) (EpR memEp REQ_REM_SIZE) = 0x1000 /\
    executeCommand s = Done (tt, s).
Proof.
  assert (Hbuf : maxNocPacketSize <= buf_size) by (simpl; lia).
  assert (Hsmall : buf_size (DtuParams := smallBufParams)
                   < maxNocPacketSize (P := smallBufParams)) by (simpl; lia).
  split; [ exact Hbuf | ]. split; [ exact Hsmall | ].
  split.
  - exact (proj1 (Dtu_new_state (P := smallBufParams) blank [core] tt) Hsmall).
  - destruct (proj2 (Dtu_new_state (P := atomicParams) (SU := subUnits)
                       blank [core] tt) Hbuf)
      as (s & Hnew & _ & _ & Hsize & _ & _ & _ & _ & _ & Hidle).
    exists s. split; [ exact Hnew | ]. split; [ exact Hsize | ].
    apply Hidle; [ exact bench_fieldsFit | reflexivity ].
Defined.

Lemma getCommand_low_bits_witness :
  let s1 := with_regFile boot (RegFile.set (regFile boot) (CmdR COMMAND) 0x3E) in
  let s2 := with_regFile boot (RegFile.set (regFile boot) (CmdR COMMAND) 0x83E) in
  fieldsFit /\
  exists cmd, getCommand s1 = Done (cmd, s1) /\ getCommand s2 = Done (cmd, s2).
Proof.
  cbv zeta. split; [ exact bench_fieldsFit | ].
  destruct (getCommand_low_bits
              (with_regFile boot (RegFile.set (regFile boot) (CmdR COMMAND) 0x3E))
              (with_regFile boot (RegFile.set (regFile boot) (CmdR COMMAND) 0x83E))
              bench_fieldsFit) as [Hsame _].
  apply Hsame. reflexivity.
Defined.

Lemma Dtu_new_serves_region_witness :
  let s := bootWith timedParams in
  let pkt := packet ReadReq 0x500 0x10 [] in
  let sent :=
    pushSenderState (setAddr pkt (NocAddr_getAddr 5 0 0x40500))
                    (NocSenderState CACHE_MEM_REQ) in
  Dtu_new (P := timedParams) blank [core] tt = Done s /\
  0 < READ < 2 ^ 32 /\ 0 < WRITE < 2 ^ 32 /\
  handleCacheMemRequest (P := timedParams) pkt false s =
    Done ((true, sent), with_trace s [SchedNocRequest sent (clockEdge 1)]).
Proof.
  cbv zeta.
  assert (Hr : 0 < READ < 2 ^ 32) by (simpl; lia).
  assert (Hw : 0 < WRITE < 2 ^ 32) by (simpl; lia).
  split; [ reflexivity | ].
  split; [ exact Hr | ]. split; [ exact Hw | ].
  apply (proj2 (Dtu_new_serves_region (P := timedParams) blank [core] tt
                  (bootWith timedParams)
                  (packet ReadReq 0x500 0x10 []) eq_refl Hr Hw bench_read_wf
                  ltac:(simpl; discriminate) ltac:(simpl; discriminate))).
  - simpl; lia.
  - vm_compute; discriminate.
  - reflexivity.
Defined.

Lemma atomic_idle_write_starts_nothing_witness :
  let pkt := packet WriteReq 0x5C0000008 8 [0x38] in
  atomicMode = true /\ fieldsFit /\
  exists s',
    forwardRequestToRegFile pkt true boot = Done (makeResponse pkt, s') /\
    cmdInProgress s' = false /\ trace s' = [].
Proof.
  cbv zeta. split; [ reflexivity | ]. split; [ exact bench_fieldsFit | ].
  assert (W := atomic_idle_write_starts_nothing (P := atomicParams) boot
                 (packet WriteReq 0x5C0000008 8 [0x38]) true eq_refl
                 bench_fieldsFit).
  change (regAccess boot (packet WriteReq 0x5C0000008 8 [0x38]) true)
    with (RegFile.set (regFile boot) (CmdR COMMAND) 0x38,
          makeResponse (setAddr (packet WriteReq 0x5C0000008 8 [0x38]) 8), true)
    in W.
  cbv iota beta in W.
  eexists. split; [ exact (W eq_refl) | ]. split; reflexivity.
Defined.

Lemma atomic_command_write_refused_witness :
  let pkt := packet WriteReq 0x5C0000008 8 [0x3E] in
  atomicMode = true /\ fieldsFit /\
  forwardRequestToRegFile pkt true (with_cmdInProgress boot true)
    = Halt AssertionFailed.
Proof.
  cbv zeta. split; [ reflexivity | ]. split; [ exact bench_fieldsFit | ].
  assert (W := atomic_command_write_refused (P := atomicParams)
                 (with_cmdInProgress boot true)
                 (packet WriteReq 0x5C0000008 8 [0x3E]) true eq_refl
                 bench_fieldsFit).
  change (regAccess (with_cmdInProgress boot true)
            (packet WriteReq 0x5C0000008 8 [0x3E]) true)
    with (RegFile.set (regFile boot) (CmdR COMMAND) 0x3E,
          makeResponse (setAddr (packet WriteReq 0x5C0000008 8 [0x3E]) 8), true)
    in W.
  cbv iota beta zeta in W.
  apply W.
  - reflexivity.
  - vm_compute; discriminate.
  - left; reflexivity.
Defined.

Lemma atomic_wakeup_write_witness :
  let pkt := packet WriteReq 0x5C0000008 8 [0x3E] in
  atomicMode = true /\ fieldsFit /\
  forwardRequestToRegFile pkt true boot =
    Done (makeResponse pkt,
          mkDtu (RegFile.set (RegFile.set (regFile boot) (CmdR COMMAND) 0x3E)
                             (CmdR COMMAND) 0)
                false [mkThreadContext Active false] tt []).
Proof.
  cbv zeta. split; [ reflexivity | ]. split; [ exact bench_fieldsFit | ].
  assert (W := atomic_wakeup_write (P := atomicParams) boot
                 (packet WriteReq 0x5C0000008 8 [0x3E]) true eq_refl
                 bench_fieldsFit).
  change (regAccess boot (packet WriteReq 0x5C0000008 8 [0x3E]) true)
    with (RegFile.set (regFile boot) (CmdR COMMAND) 0x3E,
          makeResponse (setAddr (packet WriteReq 0x5C0000008 8 [0x3E]) 8), true)
    in W.
  cbv iota beta zeta in W.
  exact (proj1 (W eq_refl eq_refl ltac:(vm_compute; reflexivity) eq_refl)).
Defined.

Lemma atomic_cache_request_round_trip_witness :
  let pkt := packet ReadReq 0x500 0x10 [] in
  atomicMode = true /\ memEp = wrap32 (numEndpoints - 1) /\
  exists response s',
    handleCacheMemRequest pkt false boot = Done ((true, response), s') /\
    addr response = 0x500.
Proof.
  cbv zeta. split; [ reflexivity | ]. split; [ reflexivity | ].
  destruct (atomic_cache_request_round_trip (P := atomicParams) (PT := ports)
              (SU := subUnits) boot (packet ReadReq 0x500 0x10 [])
              eq_refl eq_refl bench_read_wf
              ltac:(simpl; discriminate) ltac:(simpl; discriminate)
              bench_read_permitted bench_read_in_bounds
              eq_refl eq_refl eq_refl)
    as (response & Hrun & Haddr & _).
  exists response. eexists. split; [ exact Hrun | exact Haddr ].
Defined.

Lemma DtuTest_tick_done_witness :
  let st := DtuTest.mkState 16 None [] in
  16 <= DtuTest.counter st /\
  DtuTest.tick DtuTest.tester true DtuTest.testerClock st = DtuTest.mkState 17 None [].
Proof.
  cbv zeta. assert (H : 16 <= 16) by lia.
  split; [ exact H | ].
  exact (DtuTest_tick_done DtuTest.tester true DtuTest.testerClock (DtuTest.mkState 16 None []) H).
Defined.

Lemma DtuTest_tick_atomic_witness :
  DtuTest.atomic DtuTest.atomicTester = true /\ 0 < 16 /\
  exists pkt,
    DtuTest.request DtuTest.atomicTester DtuTest.testerClock 0 = Some pkt /\
    DtuTest.tick DtuTest.atomicTester false DtuTest.testerClock (DtuTest.init 0)
    = DtuTest.mkState 1 None
        [DtuTest.ScheduleTick 0; DtuTest.SendAtomic pkt; DtuTest.Delete pkt;
         DtuTest.ScheduleTick 1000].
Proof.
  assert (H : 0 < 16) by lia.
  split; [ reflexivity | ]. split; [ exact H | ].
  destruct (DtuTest_tick_atomic DtuTest.atomicTester false DtuTest.testerClock (DtuTest.init 0)
              eq_refl H) as (pkt & Hreq & _ & _ & _ & Htick).
  exists pkt. split; [ exact Hreq | exact Htick ].
Defined.

Lemma DtuTest_reads_follow_writes_witness :
  (0 <= 9 < 4 \/ 8 <= 9 < 12) /\
  exists w r,
    DtuTest.request DtuTest.tester DtuTest.testerClock 9 = Some w /\
    DtuTest.request DtuTest.tester DtuTest.testerClock 13 = Some r /\
    DtuTest.paddr r + 0x10000000 = DtuTest.paddr w.
Proof.
  assert (H : 0 <= 9 < 4 \/ 8 <= 9 < 12) by lia.
  split; [ exact H | ].
  destruct (DtuTest_reads_follow_writes DtuTest.tester DtuTest.testerClock DtuTest.testerClock 9 H)
    as (w & r & Hw & Hr & _ & _ & _ & Hhigh).
  exists w, r. split; [ exact Hw | ]. split; [ exact Hr | ].
  apply Hhigh. lia.
Defined.

Lemma DtuTest_refused_then_retried_witness :
  DtuTest.atomic DtuTest.tester = false /\ 0 < 16 /\
  exists pkt waiting,
    DtuTest.tick DtuTest.tester false DtuTest.testerClock (DtuTest.init 0) = waiting /\
    DtuTest.retryPkt waiting = Some pkt /\
    exists retried,
      DtuTest.refusedRetries DtuTest.testerClock 3 waiting = Done retried /\
      DtuTest.recvRetry true DtuTest.testerClock retried
      = Done (DtuTest.mkState 1 None
                ([DtuTest.ScheduleTick 0]
                 ++ repeat (DtuTest.SendTimingReq pkt) 5
                 ++ [DtuTest.ScheduleTick 1000])).
Proof.
  assert (H : 0 < 16) by lia.
  split; [ reflexivity | ]. split; [ exact H | ].
  destruct (DtuTest_refused_then_retried DtuTest.tester DtuTest.testerClock DtuTest.testerClock
              (DtuTest.init 0) 3 eq_refl H)
    as (pkt & waiting & _ & Htick & Hwait & retried & Hret & _ & Hdone).
  exists pkt, waiting. split; [ exact Htick | ].
  split; [ rewrite Hwait; reflexivity | ].
  exists retried. split; [ exact Hret | exact Hdone ].
Defined.

Lemma DtuTest_retry_needs_refusal_witness :
  (DtuTest.atomic DtuTest.tester = true \/ forall c : Z, (fun _ => true) c = true) /\
  DtuTest.recvRetry true DtuTest.testerClock
    (DtuTest.ticks DtuTest.tester (fun _ => true) (fun _ => DtuTest.testerClock) 20
                   (DtuTest.init 0))
  = Halt AssertionFailed.
Proof.
  assert (H : DtuTest.atomic DtuTest.tester = true
              \/ forall c : Z, (fun _ => true) c = true)
    by (right; intros c; reflexivity).
  split; [ exact H | ].
  exact (proj2 (DtuTest_retry_needs_refusal DtuTest.tester (fun _ => true)
                  (fun _ => DtuTest.testerClock) 20 0 true DtuTest.testerClock H)).
Defined.

